(** * mechbay: the binary record codec of [mechbay/data.py] and the
      string tables of [mechbay/tbl.py], as a shallow embedding.

    Python values are modelled as the interpreter has them:
    - [int] is [Z];
    - [bytes] is a list of [Byte.byte];
    - [str] is a list of Unicode code points ([Z], each in
      [0, 0x10FFFF]), so that [len], indexing and slicing count code
      points while [encode("utf-8")] counts bytes;
    - a [dict] is an insertion-ordered association list;
    - a binary stream is its contents and a cursor;
    - an exception is a value of [exn], carried by [result]. *)

From Stdlib Require Import ZArith List Bool Lia.
From Stdlib Require Import Init.Byte.
From Stdlib Require String Ascii.
Import ListNotations.
Import String.StringSyntax.
Delimit Scope string_scope with string.
Open Scope Z_scope.

(** ** Exceptions and results *)

Inductive exn : Type :=
| NotImplementedError
| AttributeError
| KeyError
| IndexError
| ValueError
| TypeError
| OverflowError
| AssertionError
| UnicodeEncodeError
| UnicodeDecodeError
| OSError.

(** [OutOfFuel] is not a Python outcome: it is what a loop of the model
    answers when the iterations it was allowed are used up. *)
Inductive result (A : Type) : Type :=
| Ok (a : A)
| Raise (e : exn)
| OutOfFuel.

Arguments Ok {A} a.
Arguments Raise {A} e.
Arguments OutOfFuel {A}.

Definition bind {A B : Type} (m : result A) (k : A -> result B) : result B :=
  match m with
  | Ok a => k a
  | Raise e => Raise e
  | OutOfFuel => OutOfFuel
  end.

Notation "x <- m ;; k" := (bind m (fun x => k))
  (at level 61, m at next level, right associativity).
Notation "' p <- m ;; k" := (bind m (fun p => k))
  (at level 61, p pattern, m at next level, right associativity).

Definition fails {A : Type} (r : result A) : Prop :=
  exists e, r = Raise e.

Definition of_sum {A : Type} (x : exn + A) : result A :=
  match x with
  | inl e => Raise e
  | inr a => Ok a
  end.

(** ** Bytes *)

Definition bytes : Type := list byte.

Definition byte_to_Z (b : byte) : Z := Z.of_N (Byte.to_N b).

Definition byte_of_Z (z : Z) : byte :=
  match Byte.of_N (Z.to_N (z mod 256)) with
  | Some b => b
  | None => x00
  end.

Definition byte_eqb (a b : byte) : bool := Byte.eqb a b.

Fixpoint bytes_eqb (a b : bytes) : bool :=
  match a, b with
  | [], [] => true
  | x :: a', y :: b' => byte_eqb x y && bytes_eqb a' b'
  | _, _ => false
  end.

(** ** Strings of code points *)

Definition str : Type := list Z.

(** A source literal, character by character. *)
Definition lit (s : String.string) : str :=
  map (fun a => Z.of_N (Ascii.N_of_ascii a)) (String.list_ascii_of_string s).

Arguments lit s%_string.

Fixpoint str_eqb (a b : str) : bool :=
  match a, b with
  | [], [] => true
  | x :: a', y :: b' => (x =? y) && str_eqb a' b'
  | _, _ => false
  end.

(** [s.startswith(prefix)] *)
Fixpoint startswith (s prefix : str) : bool :=
  match prefix, s with
  | [], _ => true
  | p :: prefix', c :: s' => (c =? p) && startswith s' prefix'
  | _ :: _, [] => false
  end.

(** [s[a:b]] for [0 <= a <= b]. *)
Definition slice {A : Type} (s : list A) (a b : nat) : list A :=
  firstn (b - a) (skipn a s).

(** [s[i]] for [0 <= i]; out of range raises IndexError. *)
Definition index {A : Type} (s : list A) (i : nat) : result A :=
  match nth_error s i with
  | Some c => Ok c
  | None => Raise IndexError
  end.

(** [chr(n)] *)
Definition chr (n : Z) : result Z :=
  if (n <? 0) || (1114111 <? n) then
    if (2147483647 <? n) || (n <? -2147483648) then Raise OverflowError
    else Raise ValueError
  else Ok n.

(** ** [int.to_bytes] and [int.from_bytes] *)

Inductive byteorder : Type := little | big.

Fixpoint le_bytes (n : nat) (v : Z) : bytes :=
  match n with
  | O => []
  | S k => byte_of_Z (v mod 256) :: le_bytes k (v / 256)
  end.

Fixpoint le_value (bs : bytes) : Z :=
  match bs with
  | [] => 0
  | b :: bs' => byte_to_Z b + 256 * le_value bs'
  end.

(** [value.to_bytes(length, byteorder=..., signed=...)]. On zero bytes
    the interpreter accepts 0 and, when signed, also -1, whose bits are
    all sign bits. *)
Definition to_bytes (value : Z) (length : Z) (order : byteorder) (signed : bool)
  : result bytes :=
  if length <? 0 then Raise ValueError
  else
    let fits :=
      if signed
      then (length =? 0) && ((value =? 0) || (value =? -1))
           || (0 <? length) && (- 2 ^ (8 * length - 1) <=? value)
                            && (value <? 2 ^ (8 * length - 1))
      else (0 <=? value) && (value <? 2 ^ (8 * length)) in
    if fits then
      let le := le_bytes (Z.to_nat length) value in
      Ok (match order with little => le | big => rev le end)
    else Raise OverflowError.

(** [int.from_bytes(byte_string, byteorder=..., signed=...)] *)
Definition from_bytes (byte_string : bytes) (order : byteorder) (signed : bool)
  : Z :=
  let le := match order with little => byte_string | big => rev byte_string end in
  let u := le_value le in
  let bits := 8 * Z.of_nat (List.length le) in
  if signed && (0 <? bits) && (2 ^ (bits - 1) <=? u) then u - 2 ^ bits else u.

(** ** UTF-8 *)

Definition utf8_encode_char (c : Z) : result bytes :=
  if (c <? 0) || (1114111 <? c) then Raise UnicodeEncodeError
  else if c <? 128 then Ok [byte_of_Z c]
  else if c <? 2048 then
    Ok [byte_of_Z (192 + c / 64); byte_of_Z (128 + c mod 64)]
  else if (55296 <=? c) && (c <=? 57343) then Raise UnicodeEncodeError
  else if c <? 65536 then
    Ok [byte_of_Z (224 + c / 4096); byte_of_Z (128 + (c / 64) mod 64);
        byte_of_Z (128 + c mod 64)]
  else
    Ok [byte_of_Z (240 + c / 262144); byte_of_Z (128 + (c / 4096) mod 64);
        byte_of_Z (128 + (c / 64) mod 64); byte_of_Z (128 + c mod 64)].

(** [s.encode("utf-8")] *)
Fixpoint utf8_encode (s : str) : result bytes :=
  match s with
  | [] => Ok []
  | c :: s' =>
      h <- utf8_encode_char c ;;
      t <- utf8_encode s' ;;
      Ok (h ++ t)
  end.

Definition is_cont (b : byte) : bool :=
  (128 <=? byte_to_Z b) && (byte_to_Z b <? 192).

(** [bs.decode("utf-8")], strict: truncated or overlong sequences,
    surrogates and code points above 0x10FFFF are rejected. *)
Fixpoint utf8_decode (bs : bytes) : result str :=
  match bs with
  | [] => Ok []
  | b0 :: r0 =>
      let v0 := byte_to_Z b0 in
      if v0 <? 128 then
        t <- utf8_decode r0 ;; Ok (v0 :: t)
      else if (194 <=? v0) && (v0 <? 224) then
        match r0 with
        | b1 :: r1 =>
            if is_cont b1 then
              t <- utf8_decode r1 ;;
              Ok ((v0 - 192) * 64 + (byte_to_Z b1 - 128) :: t)
            else Raise UnicodeDecodeError
        | _ => Raise UnicodeDecodeError
        end
      else if (224 <=? v0) && (v0 <? 240) then
        match r0 with
        | b1 :: b2 :: r2 =>
            let c := (v0 - 224) * 4096 + (byte_to_Z b1 - 128) * 64
                     + (byte_to_Z b2 - 128) in
            if is_cont b1 && is_cont b2 && (2048 <=? c)
               && negb ((55296 <=? c) && (c <=? 57343)) then
              t <- utf8_decode r2 ;; Ok (c :: t)
            else Raise UnicodeDecodeError
        | _ => Raise UnicodeDecodeError
        end
      else if (240 <=? v0) && (v0 <? 245) then
        match r0 with
        | b1 :: b2 :: b3 :: r3 =>
            let c := (v0 - 240) * 262144 + (byte_to_Z b1 - 128) * 4096
                     + (byte_to_Z b2 - 128) * 64 + (byte_to_Z b3 - 128) in
            if is_cont b1 && is_cont b2 && is_cont b3
               && (65536 <=? c) && (c <=? 1114111) then
              t <- utf8_decode r3 ;; Ok (c :: t)
            else Raise UnicodeDecodeError
        | _ => Raise UnicodeDecodeError
        end
      else Raise UnicodeDecodeError
  end.

(** ** Decimal text of integers *)

(** The decimal digits of a non-negative integer, most significant
    first; [fuel] bounds the number of digits produced. *)
Fixpoint dec_digits_aux (fuel : nat) (n : Z) (acc : str) : str :=
  match fuel with
  | O => acc
  | S f =>
      let acc' := (48 + n mod 10) :: acc in
      if n / 10 =? 0 then acc' else dec_digits_aux f (n / 10) acc'
  end.

Definition dec_digits (n : Z) : str :=
  dec_digits_aux (S (Z.to_nat (Z.log2 n))) n [].

(** [f"{n:0w}"] for a non-negative integer [n]: its decimal digits,
    padded on the left with ['0'] up to width [w]. *)
Definition format_zero_pad (w : nat) (n : Z) : str :=
  let d := dec_digits n in
  repeat 48 (w - List.length d) ++ d.

(** The characters [int()] drops around a number: the ASCII
    whitespace (tab to carriage return, space) and the Unicode
    whitespace above ASCII. *)
Definition isspace (c : Z) : bool :=
  (9 <=? c) && (c <=? 13) || (c =? 32)
  || (c =? 133) || (c =? 160) || (c =? 5760)
  || (8192 <=? c) && (c <=? 8202)
  || (c =? 8232) || (c =? 8233) || (c =? 8239) || (c =? 8287) || (c =? 12288).

Definition isdigit (c : Z) : bool := (48 <=? c) && (c <=? 57).

(** The first code points of the runs of ten decimal digits (general
    category Nd) of Unicode 14.0, the character database of CPython
    3.11, the ASCII digits first. *)
Definition decimal_runs : list Z :=
  [ 48; 1632; 1776; 1984; 2406; 2534; 2662; 2790; 2918; 3046; 3174; 3302;
    3430; 3558; 3664; 3792; 3872; 4160; 4240; 6112; 6160; 6470; 6608; 6784;
    6800; 6992; 7088; 7232; 7248; 42528; 43216; 43264; 43472; 43504; 43600;
    44016; 65296; 66720; 68912; 69734; 69872; 69942; 70096; 70384; 70736;
    70864; 71248; 71360; 71472; 71904; 72016; 72784; 73040; 73120; 92768;
    92864; 93008; 120782; 120792; 120802; 120812; 120822; 123200; 123632;
    125264; 130032 ].

(** The value of a decimal digit of any script, as [int()] reads it. *)
Fixpoint digit_in (runs : list Z) (c : Z) : option Z :=
  match runs with
  | [] => None
  | r :: runs' =>
      if (r <=? c) && (c <=? r + 9) then Some (c - r) else digit_in runs' c
  end.

Definition decimal_value (c : Z) : option Z := digit_in decimal_runs c.

Fixpoint lstrip (s : str) : str :=
  match s with
  | c :: s' => if isspace c then lstrip s' else s
  | [] => []
  end.

Definition strip (s : str) : str := rev (lstrip (rev (lstrip s))).

(** The digit part of an integer literal: a digit, then digits each
    optionally preceded by one underscore. [acc] is the value read so
    far, [expect_digit] tells that the next character has to be a digit. *)
Fixpoint int_digits (s : str) (acc : Z) (expect_digit : bool) : option Z :=
  match s with
  | [] => if expect_digit then None else Some acc
  | c :: s' =>
      match decimal_value c with
      | Some d => int_digits s' (10 * acc + d) false
      | None =>
          if (c =? 95) && negb expect_digit then int_digits s' acc true
          else None
      end
  end.

(** The number of digits above which [int()] refuses a string
    ([sys.int_max_str_digits], 4300 unless the program changes it). *)
Definition int_max_str_digits : Z := 4300.

Definition count_digits (s : str) : Z :=
  Z.of_nat (List.length
              (filter (fun c => match decimal_value c with
                                | Some _ => true
                                | None => false
                                end) s)).

(** [int(s)] for a string [s], base 10: surrounding whitespace is
    dropped, one sign is allowed, the digits are those of any script
    and may be grouped by single underscores; more than
    [int_max_str_digits] digits are a ValueError like any malformed
    string. *)
Definition int_of_str (s : str) : result Z :=
  let body := strip s in
  let parsed :=
    match body with
    | c :: r =>
        if c =? 43 then int_digits r 0 true
        else if c =? 45 then option_map Z.opp (int_digits r 0 true)
        else int_digits body 0 true
    | [] => None
    end in
  match parsed with
  | Some v =>
      if int_max_str_digits <? count_digits body then Raise ValueError
      else Ok v
  | None => Raise ValueError
  end.

(** [s.split(sep)] for a one-character separator. *)
Fixpoint split (sep : Z) (s : str) : list str :=
  match s with
  | [] => [[]]
  | c :: s' =>
      if c =? sep then [] :: split sep s'
      else match split sep s' with
           | part :: parts => (c :: part) :: parts
           | [] => [[c]]
           end
  end.

(** ** Values, dictionaries *)

Inductive value : Type :=
| VNone
| VInt (z : Z)
| VStr (s : str).

Definition dict : Type := list (str * value).

(** [d[key]] *)
Fixpoint getitem (d : dict) (key : str) : result value :=
  match d with
  | [] => Raise KeyError
  | (k, v) :: d' => if str_eqb k key then Ok v else getitem d' key
  end.

(** [d[key] = v]: an existing key keeps its place, a new one goes last. *)
Fixpoint setitem (d : dict) (key : str) (v : value) : dict :=
  match d with
  | [] => [(key, v)]
  | (k, v0) :: d' =>
      if str_eqb k key then (k, v) :: d' else (k, v0) :: setitem d' key v
  end.

Definition has_key (d : dict) (key : str) : bool :=
  existsb (fun kv => str_eqb (fst kv) key) d.

(** [int(x)] for a value. *)
Definition int_of_value (x : value) : result Z :=
  match x with
  | VInt z => Ok z
  | VStr s => int_of_str s
  | VNone => Raise TypeError
  end.

(** ** Binary streams *)

Record BytesIO : Type := mkBytesIO {
  data : bytes;
  pos : Z
}.

Definition tell (buffer : BytesIO) : Z := pos buffer.

(** [buffer.read(n)]: at most [n] bytes from the cursor, all the rest
    for a negative [n]; the cursor moves past what was read. *)
Definition read_bytes (buffer : BytesIO) (n : Z) : bytes * BytesIO :=
  let rest := skipn (Z.to_nat (pos buffer)) (data buffer) in
  let got := if n <? 0 then rest else firstn (Z.to_nat n) rest in
  (got, mkBytesIO (data buffer) (pos buffer + Z.of_nat (List.length got))).

(** [buffer.seek(p)] *)
Definition seek (buffer : BytesIO) (p : Z) : result BytesIO :=
  if p <? 0 then Raise ValueError else Ok (mkBytesIO (data buffer) p).

(** ** Classes and instances *)

Inductive class : Type :=
| C_GundamDataFile
| C_TBLData
| C_StringTBL
| C_StageVoiceTable.

(** The method resolution order: the class, then its bases
    ([TBLData] and [StringTBL] extend [GundamDataFile],
    [StageVoiceTable] extends [StringTBL]). *)
Definition mro (c : class) : list class :=
  match c with
  | C_GundamDataFile => [C_GundamDataFile]
  | C_TBLData => [C_TBLData; C_GundamDataFile]
  | C_StringTBL => [C_StringTBL; C_GundamDataFile]
  | C_StageVoiceTable => [C_StageVoiceTable; C_StringTBL; C_GundamDataFile]
  end.

(** Attribute lookup on an instance of [c]: [own] tells what each class
    body binds the name to; the first class of the order that binds it
    wins, and none is an AttributeError. *)
Definition getattr {M : Type} (own : class -> option M) (c : class) : result M :=
  match flat_map (fun k => match own k with Some m => [m] | None => [] end) (mro c) with
  | m :: _ => Ok m
  | [] => Raise AttributeError
  end.

(** The class attribute [header]. *)
Definition class_header (c : class) : option bytes :=
  match c with
  | C_GundamDataFile => None
  | C_TBLData => None
  | C_StringTBL => Some [x00; x00; x00; x00; x00; x01; x01; x00]
  | C_StageVoiceTable => Some [x54; x52; x54; x53; x00; x01; x01; x00]
  end.

(** The class attribute [default_filename], never overridden. *)
Definition default_filename (c : class) : option str := None.

Record instance : Type := mkInstance {
  cls : class;
  filename : option str;
  _start_pos : Z;
  header : option bytes;
  record_count_length : Z
}.

(** [a or b] on optional sequences: [a] when it is neither [None] nor
    empty, else [b]. *)
Definition or_else {A : Type} (a b : option (list A)) : option (list A) :=
  match a with
  | Some (_ :: _) => a
  | _ => b
  end.

Definition __init__ (c : class) (filename : option str) (header : option bytes)
    (record_count_length : option Z) : instance :=
  {| cls := c;
     filename := or_else filename (default_filename c);
     _start_pos := 0;
     header := match header with
               | Some (_ :: _) => header
               | _ => class_header c
               end;
     record_count_length := match record_count_length with
                            | Some n => n
                            | None => 4
                            end |}.

Definition set_start_pos (self : instance) (p : Z) : instance :=
  {| cls := cls self; filename := filename self; _start_pos := p;
     header := header self; record_count_length := record_count_length self |}.

(** ** [GundamDataFile]: the primitive codec *)

Definition read_int (byte_string : bytes) (order : byteorder) (signed : bool) : Z :=
  from_bytes byte_string order signed.

(** [value.to_bytes] exists on integers only. *)
Definition write_int (v : value) (length : Z) (order : byteorder) (signed : bool)
  : result bytes :=
  match v with
  | VInt z => to_bytes z length order signed
  | _ => Raise AttributeError
  end.

Definition read_series_bytes (byte_string : bytes) : result str :=
  let num := from_bytes (slice byte_string 0 2) little false in
  g <- chr (from_bytes (skipn 2 byte_string) little false) ;;
  Ok (g :: format_zero_pad 4 num).

Definition write_series_bytes (series_string : str) : result bytes :=
  n <- int_of_str (skipn 1 series_string) ;;
  b1 <- to_bytes n 2 little false ;;
  c <- index series_string 0 ;;
  b2 <- to_bytes c 2 little false ;;
  Ok (b1 ++ b2).

Definition zero_guid : bytes := [x00; x00; x00; x00; x00; x00; x00; x00].

Definition read_guid_bytes (byte_string : bytes) : result (option str) :=
  if bytes_eqb byte_string zero_guid then Ok None
  else
    let series := from_bytes (slice byte_string 0 2) little false in
    b2 <- index byte_string 2 ;;
    gundam <- chr (byte_to_Z b2) ;;
    b4 <- index byte_string 4 ;;
    unit_type <- chr (byte_to_Z b4) ;;
    b5 <- index byte_string 5 ;;
    let spec := byte_to_Z b5 in
    let model := from_bytes (slice byte_string 6 8) little false in
    Ok (Some (gundam :: format_zero_pad 4 series
              ++ unit_type :: format_zero_pad 3 model
              ++ format_zero_pad 2 spec)).

Definition write_guid_bytes (unit_string : option str) : result bytes :=
  match unit_string with
  | None | Some [] => Ok zero_guid
  | Some s =>
      series <- int_of_str (slice s 1 5) ;;
      p1 <- to_bytes series 2 little false ;;
      c0 <- index s 0 ;;
      p2 <- utf8_encode [c0] ;;
      c5 <- index s 5 ;;
      p3 <- utf8_encode [c5] ;;
      spec <- int_of_str (slice s 9 11) ;;
      p4 <- to_bytes spec 1 little false ;;
      model <- int_of_str (slice s 6 9) ;;
      p5 <- to_bytes model 2 little false ;;
      Ok (p1 ++ p2 ++ [x00] ++ p3 ++ p4 ++ p5)
  end.

(** The [while True] loop of [read_string_null_term]: one byte per
    iteration until a byte equal to [b"\x00"] is read. At the end of the
    stream [read(1)] is empty and the loop goes on. *)
Fixpoint null_term_loop (fuel : nat) (buffer : BytesIO) (all_bytes : bytes)
  : result (bytes * BytesIO) :=
  match fuel with
  | O => OutOfFuel
  | S fuel' =>
      let (char, buffer') := read_bytes buffer 1 in
      if bytes_eqb char [x00] then Ok (all_bytes, buffer')
      else null_term_loop fuel' buffer' (all_bytes ++ char)
  end.

Definition read_string_null_term (fuel : nat) (self : instance) (buffer : BytesIO)
    (offset : Z) : result (str * BytesIO) :=
  buffer1 <- seek buffer (offset + _start_pos self) ;;
  '(all_bytes, buffer2) <- null_term_loop fuel buffer1 [] ;;
  output_string <- utf8_decode all_bytes ;;
  Ok (output_string, buffer2).

Definition write_string_null_term (self : instance) (s : str) : result bytes :=
  b <- utf8_encode s ;;
  Ok (b ++ [x00]).

Definition read_string_length (self : instance) (buffer : BytesIO)
  : result (str * BytesIO) :=
  let (lb, buffer1) := read_bytes buffer 1 in
  let length := read_int lb little false in
  let (sb, buffer2) := read_bytes buffer1 length in
  output_string <- utf8_decode sb ;;
  Ok (output_string, buffer2).

Definition write_string_length (self : instance) (s : str) : result bytes :=
  b1 <- write_int (VInt (Z.of_nat (List.length s))) 1 little false ;;
  b2 <- utf8_encode s ;;
  Ok (b1 ++ b2).

(** ** [GundamDataFile]: framing *)

Definition read_header (self : instance) (buffer : BytesIO)
  : result (Z * instance * BytesIO) :=
  let self' := set_start_pos self (tell buffer) in
  match header self' with
  | None => Raise TypeError
  | Some h =>
      let (got, buffer1) := read_bytes buffer (Z.of_nat (List.length h)) in
      if bytes_eqb got h then
        let (cb, buffer2) := read_bytes buffer1 (record_count_length self') in
        Ok (read_int cb little false, self', buffer2)
      else Raise AssertionError
  end.

Definition write_header (self : instance) (record_count : value) : result bytes :=
  match header self with
  | None => Raise TypeError
  | Some h =>
      c <- write_int record_count 4 little false ;;
      Ok (h ++ c)
  end.

(** [read] and [write] of the base class. *)
Definition read (self : instance) (buffer : BytesIO) : result (list dict) :=
  Raise NotImplementedError.

Definition write (self : instance) (records : list dict) : result bytes :=
  Raise NotImplementedError.

(** ** [GundamDataFile]: the record codec *)

(** [field_type[-1]] *)
Definition last_char (s : str) : result Z := index (rev s) 0.

(** The body of the [for] loop of [read_record], over the items of
    [definition] that are left. A field type that matches no branch of
    the [if]/[elif] chain falls through it. *)
Fixpoint read_record_loop (fuel : nat) (self : instance)
    (items : list (str * str)) (record : dict) (buffer : BytesIO)
  : result (dict * BytesIO) :=
  match items with
  | [] => Ok (record, buffer)
  | (field, field_type) :: items' =>
      if startswith field_type (lit "int") then
        c <- last_char field_type ;;
        n <- int_of_str [c] ;;
        let (b, buffer') := read_bytes buffer n in
        read_record_loop fuel self items'
          (setitem record field (VInt (read_int b little true))) buffer'
      else if startswith field_type (lit "uint") then
        c <- last_char field_type ;;
        n <- int_of_str [c] ;;
        let (b, buffer') := read_bytes buffer n in
        read_record_loop fuel self items'
          (setitem record field (VInt (read_int b little false))) buffer'
      else if str_eqb field_type (lit "len_string") then
        '(s, buffer') <- read_string_length self buffer ;;
        read_record_loop fuel self items' (setitem record field (VStr s)) buffer'
      else if str_eqb field_type (lit "null_string") then
        '(s, buffer') <- read_string_null_term fuel self buffer 0 ;;
        read_record_loop fuel self items' (setitem record field (VStr s)) buffer'
      else if str_eqb field_type (lit "guid") then
        let (b, buffer') := read_bytes buffer 8 in
        g <- read_guid_bytes b ;;
        read_record_loop fuel self items'
          (setitem record field (match g with Some s => VStr s | None => VNone end))
          buffer'
      else if str_eqb field_type (lit "series_guid") then
        let (b, buffer') := read_bytes buffer 4 in
        s <- read_series_bytes b ;;
        read_record_loop fuel self items' (setitem record field (VStr s)) buffer'
      else
        read_record_loop fuel self items' record buffer
  end.

Definition read_record (fuel : nat) (self : instance) (definition : list (str * str))
    (buffer : BytesIO) : result (dict * BytesIO) :=
  read_record_loop fuel self definition [] buffer.

(** The body of the [for] loop of [write_record]. The four string-like
    branches hand [field], the key of the schema, to the encoder. *)
Fixpoint write_record_loop (self : instance) (items : list (str * str))
    (record : dict) (byte_string : bytes) : result bytes :=
  match items with
  | [] => Ok byte_string
  | (field, field_type) :: items' =>
      if startswith field_type (lit "int") then
        v <- getitem record field ;;
        c <- last_char field_type ;;
        n <- int_of_str [c] ;;
        b <- write_int v n little true ;;
        write_record_loop self items' record (byte_string ++ b)
      else if startswith field_type (lit "uint") then
        v <- getitem record field ;;
        c <- last_char field_type ;;
        n <- int_of_str [c] ;;
        b <- write_int v n little false ;;
        write_record_loop self items' record (byte_string ++ b)
      else if str_eqb field_type (lit "len_string") then
        b <- write_string_length self field ;;
        write_record_loop self items' record (byte_string ++ b)
      else if str_eqb field_type (lit "null_string") then
        b <- write_string_null_term self field ;;
        write_record_loop self items' record (byte_string ++ b)
      else if str_eqb field_type (lit "guid") then
        b <- write_guid_bytes (Some field) ;;
        write_record_loop self items' record (byte_string ++ b)
      else if str_eqb field_type (lit "series_guid") then
        b <- write_series_bytes field ;;
        write_record_loop self items' record (byte_string ++ b)
      else
        write_record_loop self items' record byte_string
  end.

Definition write_record (self : instance) (definition : list (str * str))
    (record : dict) : result bytes :=
  write_record_loop self definition record [].

(** ** Class bodies *)

(** What a name of a class body is bound to, for the calls the code
    makes through [self]. *)
Inductive method : Type :=
| M_read (f : instance -> BytesIO -> result (list dict))
| M_write (f : instance -> list dict -> result bytes)
| M_read_at (f : nat -> instance -> BytesIO -> Z -> result (str * BytesIO))
| M_other.

(** The names each class body binds, in source order. *)
Definition class_dict (c : class) : list (String.string * method) :=
  match c with
  | C_GundamDataFile =>
      [ ("header", M_other); ("default_filename", M_other);
        ("record_count_length", M_other); ("__init__", M_other);
        ("read_int", M_other); ("write_int", M_other);
        ("read_series_bytes", M_other); ("write_series_bytes", M_other);
        ("read_guid_bytes", M_other); ("write_guid_bytes", M_other);
        ("read_string_null_term", M_read_at read_string_null_term);
        ("write_string_null_term", M_other);
        ("read_string_length", M_other); ("write_string_length", M_other);
        ("read_header", M_other); ("write_header", M_other);
        ("dump", M_other); ("load", M_other); ("read_file", M_other);
        ("read", M_read read); ("write_file", M_other);
        ("write", M_write write);
        ("read_record", M_other); ("write_record", M_other) ]%string
  | C_TBLData => []
  | C_StringTBL =>
      [ ("header", M_other); ("_write", M_other); ("_read", M_other) ]%string
  | C_StageVoiceTable =>
      [ ("header", M_other); ("_read", M_other) ]%string
  end.

Fixpoint lookup_name (d : list (String.string * method)) (name : String.string)
  : option method :=
  match d with
  | [] => None
  | (k, m) :: d' => if String.eqb k name then Some m else lookup_name d' name
  end.

(** [self.name] for a method name. *)
Definition self_attr (self : instance) (name : String.string) : result method :=
  getattr (fun k => lookup_name (class_dict k) name) (cls self).

Arguments self_attr self name%_string.

(** [self.read(buffer)] *)
Definition self_read (self : instance) (buffer : BytesIO) : result (list dict) :=
  m <- self_attr self "read" ;;
  match m with
  | M_read f => f self buffer
  | _ => Raise TypeError
  end.

(** [self.write(records)] *)
Definition self_write (self : instance) (records : list dict) : result bytes :=
  m <- self_attr self "write" ;;
  match m with
  | M_write f => f self records
  | _ => Raise TypeError
  end.

(** ** [GundamDataFile]: files and JSON *)

(** [s.rpartition(sep)[0]] for a one-character separator: what precedes
    the last separator, empty when there is none. *)
Fixpoint rpartition_head (sep : Z) (s : str) : str :=
  match s with
  | [] => []
  | c :: s' =>
      if existsb (Z.eqb sep) s' then c :: rpartition_head sep s'
      else []
  end.

Section Files.

(** The file system, [json] and [os.path] are outside the codec; they
    are taken as they come. *)
Variable open_rb : option str -> exn + BytesIO.
Variable open_wb : option str -> exn + unit.
Variable buffer_write : bytes -> exn + unit.
Variable json : Type.
Variable json_load_rt : str -> exn + json.
Variable json_getitem : json -> str -> exn + list dict.
Variable json_dump_wt : str * list dict -> str -> exn + unit.
Variable os_path_split : str -> str * str.

Definition read_file (self : instance) (filename : option str)
  : result (list dict) :=
  buffer <- of_sum (open_rb filename) ;;
  self_read self buffer.

Definition write_file (self : instance) (records : list dict)
    (filename : option str) : result unit :=
  _ <- of_sum (open_wb filename) ;;
  b <- self_write self records ;;
  of_sum (buffer_write b).

(** [json_filename or (data_filename.rpartition(".")[0] + ".json")] *)
Definition json_name (data_filename json_filename : option str) : result str :=
  match json_filename with
  | Some (c :: j) => Ok (c :: j)
  | _ =>
      match data_filename with
      | Some d => Ok (rpartition_head 46 d ++ lit ".json")
      | None => Raise AttributeError
      end
  end.

(** [self.filename or os.path.split(data_filename)[1]] *)
Definition data_key (self : instance) (data_filename : option str) : result str :=
  match filename self with
  | Some (c :: f) => Ok (c :: f)
  | _ =>
      match data_filename with
      | Some d => Ok (snd (os_path_split d))
      | None => Raise TypeError
      end
  end.

Definition dump (self : instance) (data_filename json_filename : option str)
  : result unit :=
  let data_filename := or_else data_filename (filename self) in
  json_filename <- json_name data_filename json_filename ;;
  key <- data_key self data_filename ;;
  records <- read_file self data_filename ;;
  of_sum (json_dump_wt (key, records) json_filename).

Definition load (self : instance) (json_filename data_filename : option str)
  : result unit :=
  let data_filename := or_else data_filename (filename self) in
  json_filename <- json_name data_filename json_filename ;;
  j <- of_sum (json_load_rt json_filename) ;;
  key <- data_key self data_filename ;;
  records <- of_sum (json_getitem j key) ;;
  write_file self records data_filename.

End Files.

(** ** [StringTBL] *)

(** [x.encode("utf-8")] for a value: only strings have it. *)
Definition encode_value (x : value) : result bytes :=
  match x with
  | VStr s => utf8_encode s
  | _ => Raise AttributeError
  end.

Module StringTBL.

(** First loop of [_write]: the index entries, with the running
    [string_start]. *)
Fixpoint index_loop (records : list dict) (string_bytes : bytes)
    (string_start : Z) : result (bytes * Z) :=
  match records with
  | [] => Ok (string_bytes, string_start)
  | record :: records' =>
      iv <- getitem record (lit "index") ;;
      i <- int_of_value iv ;;
      ib <- to_bytes i 4 little false ;;
      pb <- to_bytes string_start 4 little false ;;
      sv <- getitem record (lit "string") ;;
      sb <- encode_value sv ;;
      index_loop records' (string_bytes ++ ib ++ pb)
                 (string_start + (Z.of_nat (List.length sb) + 1))
  end.

(** Second loop of [_write]: the strings, each with its terminator. *)
Fixpoint blob_loop (records : list dict) (string_bytes : bytes) : result bytes :=
  match records with
  | [] => Ok string_bytes
  | record :: records' =>
      sv <- getitem record (lit "string") ;;
      sb <- encode_value sv ;;
      blob_loop records' (string_bytes ++ sb ++ [x00])
  end.

Definition _write (self : instance) (records : list dict) : result bytes :=
  match header self with
  | None => Raise TypeError
  | Some h =>
      let string_bytes := h in
      let record_count := Z.of_nat (List.length records) in
      cb <- to_bytes record_count 4 little false ;;
      let string_bytes := string_bytes ++ cb in
      let string_start := 12 + record_count * 8 in
      let padding := 16 - string_start mod 16 in
      let string_start := string_start + padding in
      '(string_bytes, _) <- index_loop records string_bytes string_start ;;
      let string_bytes := string_bytes ++ repeat x00 (Z.to_nat padding) in
      blob_loop records string_bytes
  end.

(** First loop of [_read]: [i] runs over [range(record_count)]. *)
Fixpoint entries_loop (n : nat) (i : Z) (buffer : BytesIO) (records : list dict)
  : list dict * BytesIO :=
  match n with
  | O => (records, buffer)
  | S n' =>
      let (ib, buffer1) := read_bytes buffer 4 in
      let (pb, buffer2) := read_bytes buffer1 4 in
      let record :=
        [ (lit "__order", VInt i);
          (lit "index", VInt (from_bytes ib little false));
          (lit "__pointer", VInt (from_bytes pb little false)) ] in
      entries_loop n' (i + 1) buffer2 (records ++ [record])
  end.

(** Second loop of [_read]: each record gets its string through
    [self.read_string]. *)
Fixpoint strings_loop (fuel : nat) (self : instance) (records : list dict)
    (buffer : BytesIO) : result (list dict * BytesIO) :=
  match records with
  | [] => Ok ([], buffer)
  | record :: records' =>
      m <- self_attr self "read_string" ;;
      p <- getitem record (lit "__pointer") ;;
      '(s, buffer') <- match m, p with
                       | M_read_at f, VInt offset => f fuel self buffer offset
                       | _, _ => Raise TypeError
                       end ;;
      '(rest, buffer'') <- strings_loop fuel self records' buffer' ;;
      Ok (setitem record (lit "string") (VStr s) :: rest, buffer'')
  end.

Definition _read (fuel : nat) (self : instance) (buffer : BytesIO)
  : result (list dict * instance * BytesIO) :=
  '(record_count, self1, buffer1) <- read_header self buffer ;;
  let (records, buffer2) := entries_loop (Z.to_nat record_count) 0 buffer1 [] in
  '(records, buffer3) <- strings_loop fuel self1 records buffer2 ;;
  Ok (records, self1, buffer3).

End StringTBL.

(** ** [StageVoiceTable] *)

Module StageVoiceTable.

(** [x.split(",")] for a value. *)
Definition split_value (x : value) : result (list str) :=
  match x with
  | VStr s => Ok (split 44 s)
  | _ => Raise AttributeError
  end.

(** The body of the [for] loop of [_read], for one record. *)
Definition unpack_record (record : dict) : result dict :=
  sv <- getitem record (lit "string") ;;
  unpack <- split_value sv ;;
  p0 <- index unpack 0 ;;
  let record := setitem record (lit "voice_id") (VStr p0) in
  p1 <- index unpack 1 ;;
  v1 <- int_of_str p1 ;;
  let record := setitem record (lit "val1") (VInt v1) in
  p2 <- index unpack 2 ;;
  v2 <- int_of_str p2 ;;
  let record := setitem record (lit "val2") (VInt v2) in
  p3 <- index unpack 3 ;;
  v3 <- int_of_str p3 ;;
  Ok (setitem record (lit "val3") (VInt v3)).

Fixpoint unpack_loop (records : list dict) : result (list dict) :=
  match records with
  | [] => Ok []
  | record :: records' =>
      r <- unpack_record record ;;
      rest <- unpack_loop records' ;;
      Ok (r :: rest)
  end.

Definition _read (fuel : nat) (self : instance) (buffer : BytesIO)
  : result (list dict * instance * BytesIO) :=
  '(records, self1, buffer1) <- StringTBL._read fuel self buffer ;;
  records <- unpack_loop records ;;
  Ok (records, self1, buffer1).

End StageVoiceTable.

(** ** Vocabulary of the statements *)

(** The number a string of digits denotes, after [acc]. *)
Definition digits_value (s : str) (acc : Z) : Z :=
  fold_left (fun a c => 10 * a + (c - 48)) s acc.

Definition all_digits (s : str) : Prop := Forall (fun c => isdigit c = true) s.

(** A field type that no branch of the [if]/[elif] chain accepts. *)
Definition unknown_tag (t : str) : bool :=
  negb (startswith t (lit "int")) && negb (startswith t (lit "uint"))
  && negb (str_eqb t (lit "len_string")) && negb (str_eqb t (lit "null_string"))
  && negb (str_eqb t (lit "guid")) && negb (str_eqb t (lit "series_guid")).

(** The position of the first zero byte. *)
Fixpoint first_null (bs : bytes) : option nat :=
  match bs with
  | [] => None
  | b :: bs' =>
      if byte_eqb b x00 then Some O
      else option_map S (first_null bs')
  end.

(** What [_write] takes from a record: its index as an integer and
    the encoding of its string. *)
Definition record_fields (record : dict) : result (Z * bytes) :=
  iv <- getitem record (lit "index") ;;
  i <- int_of_value iv ;;
  sv <- getitem record (lit "string") ;;
  sb <- encode_value sv ;;
  Ok (i, sb).

(** The layout of the table, following the description of the format:
    8 bytes per entry, the index and the offset of the string; then the
    strings, each closed by a zero byte. *)
Fixpoint entries (items : list (Z * bytes)) (string_start : Z) : bytes :=
  match items with
  | [] => []
  | (i, sb) :: items' =>
      le_bytes 4 i ++ le_bytes 4 string_start
      ++ entries items' (string_start + (Z.of_nat (List.length sb) + 1))
  end.

Fixpoint blob (items : list (Z * bytes)) : bytes :=
  match items with
  | [] => []
  | (_, sb) :: items' => sb ++ x00 :: blob items'
  end.

(** Every pointer of the entries fits 32 bits. *)
Fixpoint pointers_fit (items : list (Z * bytes)) (string_start : Z) : Prop :=
  match items with
  | [] => True
  | (i, sb) :: items' =>
      0 <= i < 4294967296 /\ 0 <= string_start < 4294967296
      /\ pointers_fit items' (string_start + (Z.of_nat (List.length sb) + 1))
  end.

(** The padding [_write] computes for [count] records. *)
Definition padding_of (count : Z) : Z := 16 - (12 + count * 8) mod 16.

(** Where the string of entry [k] starts inside the blob. *)
Definition blob_offset (items : list (Z * bytes)) (k : nat) : nat :=
  List.length (blob (firstn k items)).

(** A string of ASCII characters. *)
Definition ascii_str (s : str) : Prop := Forall (fun c => 0 <= c < 128) s.

(** The bytes of a little-endian sequence in the given byte order. *)
Definition in_order (order : byteorder) (le : bytes) : bytes :=
  match order with little => le | big => rev le end.

(** A field type of the two integer branches of the record codec. *)
Definition int_tag (t : str) : bool :=
  startswith t (lit "int") || startswith t (lit "uint").

(** An integer field type whose last character is a digit, the width. *)
Definition int_width_tag (t : str) : bool :=
  int_tag t && match last_char t with Ok c => isdigit c | _ => false end.

(** An integer field type whose width, its last character as [int()]
    reads it, is not 0. *)
Definition wide_int_tag (t : str) : bool :=
  int_tag t && match last_char t with
               | Ok c => match int_of_str [c] with Ok 0 => false | _ => true end
               | _ => true
               end.

(** The records the first loop of [_read] builds from the entries of a
    table: position, index and pointer of each. *)
Fixpoint index_records (items : list (Z * bytes)) (string_start order : Z)
  : list dict :=
  match items with
  | [] => []
  | (i, sb) :: items' =>
      [ (lit "__order", VInt order); (lit "index", VInt i);
        (lit "__pointer", VInt string_start) ]
      :: index_records items'
           (string_start + (Z.of_nat (List.length sb) + 1)) (order + 1)
  end.

(** * Properties *)

(** ** Bytes and little-endian integers *)

Lemma byte_to_Z_range (b : byte) : 0 <= byte_to_Z b < 256.
Proof.
  unfold byte_to_Z. pose proof (Byte.to_N_bounded b). lia.
Qed.

Lemma byte_of_to_Z (b : byte) : byte_of_Z (byte_to_Z b) = b.
Proof.
  unfold byte_of_Z. rewrite Z.mod_small by apply byte_to_Z_range.
  unfold byte_to_Z. rewrite N2Z.id, Byte.of_to_N. reflexivity.
Qed.

Lemma byte_to_of_Z (z : Z) : 0 <= z < 256 -> byte_to_Z (byte_of_Z z) = z.
Proof.
  intros Hz. unfold byte_of_Z. rewrite Z.mod_small by assumption.
  destruct (Byte.of_N (Z.to_N z)) as [b|] eqn:E.
  - unfold byte_to_Z. apply Byte.to_of_N in E. rewrite E. lia.
  - apply Byte.of_N_None_iff in E. lia.
Qed.

Lemma byte_eqb_eq (a b : byte) : byte_eqb a b = true <-> a = b.
Proof.
  unfold byte_eqb. split.
  - intros H. apply Byte.byte_dec_bl. exact H.
  - intros ->. apply Byte.byte_dec_lb. reflexivity.
Qed.

Lemma bytes_eqb_eq (a b : bytes) : bytes_eqb a b = true <-> a = b.
Proof.
  revert b. induction a as [|x a IH]; intros [|y b]; simpl; split;
    try congruence; try reflexivity.
  - rewrite andb_true_iff, byte_eqb_eq, IH. intros [-> ->]. reflexivity.
  - intros [= -> ->]. rewrite andb_true_iff, byte_eqb_eq, IH. auto.
Qed.

Lemma bytes_eqb_refl (a : bytes) : bytes_eqb a a = true.
Proof. apply bytes_eqb_eq. reflexivity. Qed.

Lemma str_eqb_eq (a b : str) : str_eqb a b = true <-> a = b.
Proof.
  revert b. induction a as [|x a IH]; intros [|y b]; simpl; split;
    try congruence; try reflexivity.
  - rewrite andb_true_iff, Z.eqb_eq, IH. intros [-> ->]. reflexivity.
  - intros [= -> ->]. rewrite andb_true_iff, Z.eqb_eq, IH. auto.
Qed.

Lemma length_le_bytes (n : nat) (v : Z) : List.length (le_bytes n v) = n.
Proof.
  revert v. induction n as [|n IH]; intros v; simpl; [|rewrite IH]; reflexivity.
Qed.

Lemma le_value_range (bs : bytes) :
  0 <= le_value bs < 256 ^ Z.of_nat (List.length bs).
Proof.
  induction bs as [|b bs IH].
  - simpl. lia.
  - cbn [le_value List.length]. rewrite Nat2Z.inj_succ, Z.pow_succ_r by lia.
    pose proof (byte_to_Z_range b). lia.
Qed.

Lemma le_bytes_le_value (bs : bytes) :
  le_bytes (List.length bs) (le_value bs) = bs.
Proof.
  induction bs as [|b bs IH]; [reflexivity|].
  cbn [le_value List.length le_bytes].
  pose proof (byte_to_Z_range b) as Hb.
  replace ((byte_to_Z b + 256 * le_value bs) mod 256) with (byte_to_Z b).
  - replace ((byte_to_Z b + 256 * le_value bs) / 256) with (le_value bs).
    + rewrite byte_of_to_Z, IH. reflexivity.
    + rewrite Z.mul_comm, Z.div_add by lia. rewrite Z.div_small by lia. lia.
  - rewrite Z.mul_comm, Z.mod_add by lia. rewrite Z.mod_small by lia. reflexivity.
Qed.

Lemma le_value_le_bytes (n : nat) (v : Z) :
  0 <= v < 256 ^ Z.of_nat n -> le_value (le_bytes n v) = v.
Proof.
  revert v. induction n as [|n IH]; intros v Hv.
  - simpl in *. lia.
  - cbn [le_bytes le_value].
    rewrite Nat2Z.inj_succ, Z.pow_succ_r in Hv by lia.
    rewrite byte_to_of_Z by (apply Z.mod_pos_bound; lia).
    rewrite IH.
    + pose proof (Z.div_mod v 256). lia.
    + split; [apply Z.div_pos; lia|].
      apply Z.div_lt_upper_bound; lia.
Qed.

Lemma to_bytes_unsigned (v : Z) (n : nat) :
  0 <= v < 256 ^ Z.of_nat n ->
  to_bytes v (Z.of_nat n) little false = Ok (le_bytes n v).
Proof.
  intros Hv. unfold to_bytes.
  replace (Z.of_nat n <? 0) with false by (symmetry; apply Z.ltb_ge; lia).
  replace (2 ^ (8 * Z.of_nat n)) with (256 ^ Z.of_nat n)
    by (rewrite Z.pow_mul_r by lia; reflexivity).
  replace (0 <=? v) with true by (symmetry; apply Z.leb_le; lia).
  replace (v <? 256 ^ Z.of_nat n) with true by (symmetry; apply Z.ltb_lt; lia).
  simpl. rewrite Nat2Z.id. reflexivity.
Qed.

Lemma to_bytes_length (v n : Z) (order : byteorder) (signed : bool) (b : bytes) :
  to_bytes v n order signed = Ok b -> Z.of_nat (List.length b) = n.
Proof.
  unfold to_bytes. destruct (n <? 0) eqn:En; [discriminate|].
  apply Z.ltb_ge in En.
  match goal with |- context [if ?c then _ else Raise _] => destruct c end;
    [|discriminate].
  intros [= <-]. destruct order; rewrite ?length_rev, length_le_bytes; lia.
Qed.

(** ** Decimal text *)

Lemma isdigit_not_space (c : Z) : isdigit c = true -> isspace c = false.
Proof.
  unfold isdigit, isspace. intros H. apply andb_true_iff in H.
  destruct H as [H1 H2]. apply Z.leb_le in H1. apply Z.leb_le in H2.
  repeat match goal with
         | |- context [?a <=? ?b] =>
             let E := fresh in destruct (Z.leb_spec a b) as [E|E]
         | |- context [?a =? ?b] =>
             let E := fresh in destruct (Z.eqb_spec a b) as [E|E]
         end; simpl; try reflexivity; lia.
Qed.

Lemma lstrip_digits (s : str) : all_digits s -> lstrip s = s.
Proof.
  intros H. destruct H as [|c s Hc Hs]; [reflexivity|].
  simpl. rewrite (isdigit_not_space _ Hc). reflexivity.
Qed.

Lemma strip_digits (s : str) : all_digits s -> strip s = s.
Proof.
  intros H. unfold strip. rewrite (lstrip_digits s H).
  rewrite lstrip_digits by (apply Forall_rev; exact H).
  apply rev_involutive.
Qed.

Lemma decimal_value_digit (c : Z) :
  isdigit c = true -> decimal_value c = Some (c - 48).
Proof.
  intros H. unfold decimal_value, decimal_runs. cbn [digit_in].
  change (48 + 9) with 57. unfold isdigit in H. rewrite H. reflexivity.
Qed.

Lemma int_digits_all (s : str) :
  all_digits s -> forall acc e, (s <> [] \/ e = false) ->
  int_digits s acc e = Some (digits_value s acc).
Proof.
  induction 1 as [|c s Hc Hs IH]; intros acc e He.
  - destruct He as [He | ->]; [congruence | reflexivity].
  - cbn [int_digits]. rewrite (decimal_value_digit _ Hc).
    apply IH. right. reflexivity.
Qed.

Lemma count_digits_all (s : str) :
  all_digits s -> count_digits s = Z.of_nat (List.length s).
Proof.
  intros H. unfold count_digits. f_equal.
  induction H as [|c s Hc Hs IH]; [reflexivity|].
  cbn [filter]. rewrite (decimal_value_digit _ Hc). cbn [List.length].
  rewrite IH. reflexivity.
Qed.

Lemma int_of_str_all_digits (s : str) :
  all_digits s -> s <> [] ->
  int_of_str s
  = if int_max_str_digits <? Z.of_nat (List.length s)
    then Raise ValueError else Ok (digits_value s 0).
Proof.
  intros H Hne. unfold int_of_str. rewrite (strip_digits _ H).
  rewrite (count_digits_all _ H).
  destruct s as [|c r]; [congruence|].
  assert (Hc : isdigit c = true) by (inversion H; assumption).
  unfold isdigit in Hc. apply andb_true_iff in Hc. destruct Hc as [H1 H2].
  apply Z.leb_le in H1. apply Z.leb_le in H2.
  destruct (Z.eqb_spec c 43); [lia|]. destruct (Z.eqb_spec c 45); [lia|].
  rewrite (int_digits_all _ H) by (left; assumption). reflexivity.
Qed.

Lemma int_of_str_digits (s : str) :
  all_digits s -> s <> [] -> Z.of_nat (List.length s) <= int_max_str_digits ->
  int_of_str s = Ok (digits_value s 0).
Proof.
  intros H Hne Hlen. rewrite (int_of_str_all_digits _ H Hne).
  replace (int_max_str_digits <? Z.of_nat (List.length s)) with false
    by (symmetry; apply Z.ltb_ge; exact Hlen).
  reflexivity.
Qed.

Lemma dec_digits_aux_app (fuel : nat) :
  forall n acc, dec_digits_aux fuel n acc = dec_digits_aux fuel n [] ++ acc.
Proof.
  induction fuel as [|fuel IH]; intros n acc; simpl; [reflexivity|].
  destruct (n / 10 =? 0); [reflexivity|].
  rewrite IH, (IH _ [_]), <- app_assoc. reflexivity.
Qed.

Lemma digits_value_app (s t : str) (acc : Z) :
  digits_value (s ++ t) acc = digits_value t (digits_value s acc).
Proof. apply fold_left_app. Qed.

Lemma dec_digits_aux_value (fuel : nat) :
  forall n, 0 <= n < 2 ^ Z.of_nat fuel ->
  digits_value (dec_digits_aux fuel n []) 0 = n.
Proof.
  induction fuel as [|fuel IH]; intros n Hn.
  - simpl in *. lia.
  - rewrite Nat2Z.inj_succ, Z.pow_succ_r in Hn by lia.
    cbn [dec_digits_aux]. pose proof (Z.div_mod n 10) as Hdm.
    pose proof (Z.mod_pos_bound n 10) as Hm.
    destruct (Z.eqb_spec (n / 10) 0) as [E|E].
    + unfold digits_value, fold_left. lia.
    + rewrite dec_digits_aux_app, digits_value_app, IH.
      * unfold digits_value, fold_left. lia.
      * split; [apply Z.div_pos; lia|]. apply Z.div_lt_upper_bound; lia.
Qed.

Lemma dec_digits_aux_digits (fuel : nat) :
  forall n acc, all_digits acc -> all_digits (dec_digits_aux fuel n acc).
Proof.
  induction fuel as [|fuel IH]; intros n acc Hacc; simpl; [assumption|].
  assert (all_digits ((48 + n mod 10) :: acc)).
  { constructor; [|assumption]. pose proof (Z.mod_pos_bound n 10).
    unfold isdigit. apply andb_true_iff. split; apply Z.leb_le; lia. }
  destruct (n / 10 =? 0); auto.
Qed.

Lemma dec_digits_aux_length (fuel : nat) :
  forall n k, 0 <= n < 10 ^ Z.of_nat (S k) ->
  (List.length (dec_digits_aux fuel n []) <= S k)%nat.
Proof.
  induction fuel as [|fuel IH]; intros n k Hn; simpl; [lia|].
  destruct (Z.eqb_spec (n / 10) 0) as [E|E]; [simpl; lia|].
  rewrite dec_digits_aux_app, length_app. simpl.
  destruct k as [|k].
  - exfalso. apply E. apply Z.div_small. simpl in Hn. lia.
  - specialize (IH (n / 10) k).
    rewrite (Nat2Z.inj_succ (S k)), Z.pow_succ_r in Hn by lia.
    assert (0 <= n / 10 < 10 ^ Z.of_nat (S k)).
    { split; [apply Z.div_pos; lia|]. apply Z.div_lt_upper_bound; lia. }
    specialize (IH H). lia.
Qed.

Lemma dec_digits_value (n : Z) : 0 <= n -> digits_value (dec_digits n) 0 = n.
Proof.
  intros Hn. unfold dec_digits. apply dec_digits_aux_value.
  split; [assumption|]. rewrite Nat2Z.inj_succ, Z2Nat.id by apply Z.log2_nonneg.
  destruct (Z.eq_dec n 0) as [->|Hz]; [reflexivity|].
  apply Z.log2_spec. lia.
Qed.

Lemma dec_digits_nonempty (n : Z) : dec_digits n <> [].
Proof.
  unfold dec_digits. simpl. destruct (n / 10 =? 0); [discriminate|].
  rewrite dec_digits_aux_app. intros H. apply app_eq_nil in H.
  destruct H; discriminate.
Qed.

Lemma format_zero_pad_digits (w : nat) (n : Z) : all_digits (format_zero_pad w n).
Proof.
  unfold format_zero_pad. apply Forall_app. split.
  - apply Forall_forall. intros c Hc. apply repeat_spec in Hc. subst. reflexivity.
  - apply dec_digits_aux_digits. constructor.
Qed.

Lemma format_zero_pad_length (k : nat) (n : Z) :
  0 <= n < 10 ^ Z.of_nat (S k) -> List.length (format_zero_pad (S k) n) = S k.
Proof.
  intros Hn. unfold format_zero_pad.
  pose proof (dec_digits_aux_length (S (Z.to_nat (Z.log2 n))) n k Hn) as Hl.
  fold (dec_digits n) in Hl. rewrite length_app, repeat_length. lia.
Qed.

Lemma digits_value_zeros (k : nat) : digits_value (repeat 48 k) 0 = 0.
Proof. induction k as [|k IH]; [reflexivity|]. cbn. exact IH. Qed.

Lemma int_of_str_format_zero_pad (w : nat) (n : Z) :
  0 <= n < 100000 -> (w <= 5)%nat -> int_of_str (format_zero_pad w n) = Ok n.
Proof.
  intros Hn Hw. rewrite int_of_str_digits.
  - unfold format_zero_pad. rewrite digits_value_app, digits_value_zeros.
    rewrite dec_digits_value by lia. reflexivity.
  - apply format_zero_pad_digits.
  - unfold format_zero_pad. intros H. apply app_eq_nil in H.
    destruct H as [_ H]. exact (dec_digits_nonempty _ H).
  - unfold format_zero_pad, int_max_str_digits.
    pose proof (dec_digits_aux_length (S (Z.to_nat (Z.log2 n))) n 4 Hn) as Hl.
    fold (dec_digits n) in Hl. rewrite length_app, repeat_length. lia.
Qed.

Lemma from_bytes_unsigned (bs : bytes) : from_bytes bs little false = le_value bs.
Proof. reflexivity. Qed.

Lemma to_bytes_u16 (v : Z) :
  0 <= v <= 65535 -> to_bytes v 2 little false = Ok (le_bytes 2 v).
Proof. intros H. apply (to_bytes_unsigned v 2). simpl. lia. Qed.

Lemma to_bytes_u8 (v : Z) :
  0 <= v <= 255 -> to_bytes v 1 little false = Ok (le_bytes 1 v).
Proof. intros H. apply (to_bytes_unsigned v 1). simpl. lia. Qed.

Lemma chr_ok (n : Z) : 0 <= n <= 1114111 -> chr n = Ok n.
Proof.
  intros H. unfold chr.
  destruct (Z.ltb_spec n 0); [lia|]. destruct (Z.ltb_spec 1114111 n); [lia|].
  reflexivity.
Qed.

Lemma utf8_encode_ascii (b : byte) :
  byte_to_Z b < 128 -> utf8_encode [byte_to_Z b] = Ok [b].
Proof.
  intros H. pose proof (byte_to_Z_range b) as R. simpl. unfold utf8_encode_char.
  destruct (Z.ltb_spec (byte_to_Z b) 0); [lia|].
  destruct (Z.ltb_spec 1114111 (byte_to_Z b)); [lia|].
  destruct (Z.ltb_spec (byte_to_Z b) 128); [|lia].
  simpl. rewrite byte_of_to_Z. reflexivity.
Qed.

(** ** Series identifiers *)

(** C7, as the code has it: for every number in [0, 9999] and every
    letter whose code point fits two bytes (at most 0xFFFF),
    [write_series_bytes] of the letter followed by the number on four
    digits gives 4 bytes, and [read_series_bytes] of those gives the
    same string back. *)
Theorem series_bytes_roundtrip (number letter : Z) :
  0 <= number <= 9999 -> 0 <= letter <= 65535 ->
  exists b,
    write_series_bytes (letter :: format_zero_pad 4 number) = Ok b
    /\ List.length b = 4%nat
    /\ read_series_bytes b = Ok (letter :: format_zero_pad 4 number).
Proof.
  intros Hn Hl. exists (le_bytes 2 number ++ le_bytes 2 letter).
  split; [|split].
  - unfold write_series_bytes. cbn [skipn].
    rewrite int_of_str_format_zero_pad by lia. cbn [bind].
    rewrite to_bytes_u16 by lia. cbn [bind index nth_error].
    rewrite to_bytes_u16 by lia. reflexivity.
  - reflexivity.
  - unfold read_series_bytes. rewrite !from_bytes_unsigned.
    change (slice (le_bytes 2 number ++ le_bytes 2 letter) 0 2)
      with (le_bytes 2 number).
    change (skipn 2 (le_bytes 2 number ++ le_bytes 2 letter))
      with (le_bytes 2 letter).
    rewrite !le_value_le_bytes by (simpl; lia).
    rewrite chr_ok by lia. reflexivity.
Qed.

Lemma series_bytes_roundtrip_witness :
  (0 <= 42 <= 9999 /\ 0 <= 65 <= 65535) /\
  exists b,
    write_series_bytes (65 :: format_zero_pad 4 42) = Ok b
    /\ List.length b = 4%nat
    /\ read_series_bytes b = Ok (65 :: format_zero_pad 4 42).
Proof.
  split; [lia|]. apply (series_bytes_roundtrip 42 65); lia.
Defined.

(** C7 fails for a single character outside the Basic Multilingual
    Plane: with number 0 and the letter U+1F600 the character code does
    not fit the two bytes and [write_series_bytes] raises. *)
Lemma series_bytes_astral_letter :
  0 <= 0 <= 9999 /\ List.length [128512] = 1%nat
  /\ utf8_encode [128512] = Ok [xf0; x9f; x98; x80]
  /\ write_series_bytes (128512 :: format_zero_pad 4 0) = Raise OverflowError.
Proof. repeat split; try lia; reflexivity. Qed.

(** ** Unit identifiers *)

Lemma length8 {A : Type} (l : list A) :
  List.length l = 8%nat ->
  exists a0 a1 a2 a3 a4 a5 a6 a7, l = [a0; a1; a2; a3; a4; a5; a6; a7].
Proof.
  intros H.
  do 8 (destruct l as [|? l]; [discriminate|]).
  destruct l; [|discriminate]. repeat eexists.
Qed.

Lemma format_zero_pad_4 (n : Z) :
  0 <= n <= 9999 -> exists a b c d, format_zero_pad 4 n = [a; b; c; d].
Proof.
  intros H. pose proof (format_zero_pad_length 3 n) as L.
  destruct (format_zero_pad 4 n) as [|a [|b [|c [|d [|e l]]]]];
    try (simpl in L; lia). eauto.
Qed.

Lemma format_zero_pad_3 (n : Z) :
  0 <= n <= 999 -> exists a b c, format_zero_pad 3 n = [a; b; c].
Proof.
  intros H. pose proof (format_zero_pad_length 2 n) as L.
  destruct (format_zero_pad 3 n) as [|a [|b [|c [|e l]]]];
    try (simpl in L; lia). eauto.
Qed.

Lemma format_zero_pad_2 (n : Z) :
  0 <= n <= 99 -> exists a b, format_zero_pad 2 n = [a; b].
Proof.
  intros H. pose proof (format_zero_pad_length 1 n) as L.
  destruct (format_zero_pad 2 n) as [|a [|b [|e l]]];
    try (simpl in L; lia). eauto.
Qed.

(** C3, as the code has it: an 8-byte input whose reserved byte 3 is
    zero, whose letter bytes 2 and 4 are below 0x80, whose series
    (bytes 0-1) is at most 9999, whose spec (byte 5) is at most 99 and
    whose model (bytes 6-7) is at most 999 is reproduced exactly by
    [read_guid_bytes] followed by [write_guid_bytes]; the decoded value
    is [None] exactly for the all-zero input, and otherwise a string of
    11 characters. *)
Theorem guid_bytes_roundtrip (byte_string : bytes) :
  List.length byte_string = 8%nat ->
  nth 3 byte_string x00 = x00 ->
  from_bytes (slice byte_string 0 2) little false <= 9999 ->
  byte_to_Z (nth 2 byte_string x00) < 128 ->
  byte_to_Z (nth 4 byte_string x00) < 128 ->
  byte_to_Z (nth 5 byte_string x00) <= 99 ->
  from_bytes (slice byte_string 6 8) little false <= 999 ->
  exists unit_id,
    read_guid_bytes byte_string = Ok unit_id
    /\ write_guid_bytes unit_id = Ok byte_string
    /\ (unit_id = None <-> byte_string = zero_guid)
    /\ (forall s, unit_id = Some s -> List.length s = 11%nat).
Proof.
  intros L H3 Hser H2 H4 H5 Hmod.
  destruct (length8 byte_string L) as (b0 & b1 & b2 & b3 & b4 & b5 & b6 & b7 & ->).
  cbn [nth] in H3, H2, H4, H5. subst b3.
  rewrite from_bytes_unsigned in Hser, Hmod.
  change (slice [b0; b1; b2; x00; b4; b5; b6; b7] 0 2) with [b0; b1] in Hser.
  change (slice [b0; b1; b2; x00; b4; b5; b6; b7] 6 8) with [b6; b7] in Hmod.
  pose proof (le_value_range [b0; b1]) as R01.
  pose proof (le_value_range [b6; b7]) as R67.
  pose proof (byte_to_Z_range b2) as R2.
  pose proof (byte_to_Z_range b4) as R4.
  pose proof (byte_to_Z_range b5) as R5.
  unfold read_guid_bytes.
  destruct (bytes_eqb [b0; b1; b2; x00; b4; b5; b6; b7] zero_guid) eqn:Ez.
  - apply bytes_eqb_eq in Ez. exists None. rewrite Ez.
    repeat split; try reflexivity; discriminate.
  - cbn [index nth_error bind]. rewrite !from_bytes_unsigned.
    change (slice [b0; b1; b2; x00; b4; b5; b6; b7] 0 2) with [b0; b1].
    change (slice [b0; b1; b2; x00; b4; b5; b6; b7] 6 8) with [b6; b7].
    rewrite !chr_ok by lia. cbn [bind].
    destruct (format_zero_pad_4 (le_value [b0; b1])) as (d1 & d2 & d3 & d4 & E4);
      [lia|].
    destruct (format_zero_pad_3 (le_value [b6; b7])) as (e1 & e2 & e3 & E3);
      [lia|].
    destruct (format_zero_pad_2 (byte_to_Z b5)) as (f1 & f2 & E2); [lia|].
    eexists. split; [reflexivity|]. split; [|split].
    + rewrite E4, E3, E2. cbn [app write_guid_bytes].
      change (slice _ 1 5) with [d1; d2; d3; d4].
      change (slice _ 9 11) with [f1; f2].
      change (slice _ 6 9) with [e1; e2; e3].
      rewrite <- E4, int_of_str_format_zero_pad by lia. cbn [bind].
      rewrite to_bytes_u16 by lia.
      change 2%nat with (List.length [b0; b1]) at 1. rewrite le_bytes_le_value.
      cbn [bind index nth_error app].
      rewrite utf8_encode_ascii by lia. cbn [bind].
      rewrite utf8_encode_ascii by lia. cbn [bind].
      rewrite <- E2, int_of_str_format_zero_pad by lia. cbn [bind].
      rewrite to_bytes_u8 by lia. cbn [bind].
      rewrite <- E3, int_of_str_format_zero_pad by lia. cbn [bind].
      rewrite to_bytes_u16 by lia.
      change 2%nat with (List.length [b6; b7]) at 1. rewrite le_bytes_le_value.
      cbn [bind app le_bytes].
      rewrite Z.mod_small by lia. rewrite byte_of_to_Z. reflexivity.
    + split; [discriminate|]. intros E. rewrite E in Ez. discriminate.
    + rewrite E4, E3, E2. intros s [= <-]. reflexivity.
Qed.

Lemma guid_bytes_roundtrip_witness :
  exists unit_id,
    read_guid_bytes [x01; x00; x41; x00; x42; x01; x01; x00] = Ok unit_id
    /\ write_guid_bytes unit_id = Ok [x01; x00; x41; x00; x42; x01; x01; x00]
    /\ (unit_id = None <-> [x01; x00; x41; x00; x42; x01; x01; x00] = zero_guid)
    /\ (forall s, unit_id = Some s -> List.length s = 11%nat).
Proof.
  apply (guid_bytes_roundtrip [x01; x00; x41; x00; x42; x01; x01; x00]);
    vm_compute; solve [reflexivity | discriminate].
Defined.

(** C3 fails on 8-byte inputs outside those bounds. With byte 3 set,
    the decoder drops it and the encoder writes zero; a series of 10000
    takes five digits and the encoder then reads the fields at the
    wrong places; a letter byte of 0xC9 is written back as the two
    bytes of its UTF-8 form; a spec of 100 or a model of 1000 takes one
    digit more than the encoder reads. *)
Lemma guid_bytes_roundtrip_counterexample :
  (read_guid_bytes [x01; x00; x41; xff; x42; x01; x01; x00]
     = Ok (Some (lit "A0001B00101"))
   /\ write_guid_bytes (Some (lit "A0001B00101"))
     = Ok [x01; x00; x41; x00; x42; x01; x01; x00]
   /\ [x01; x00; x41; x00; x42; x01; x01; x00]
     <> [x01; x00; x41; xff; x42; x01; x01; x00])
  /\ (read_guid_bytes [x10; x27; x41; x00; x42; x01; x01; x00]
     = Ok (Some (lit "A10000B00101"))
   /\ write_guid_bytes (Some (lit "A10000B00101")) = Raise ValueError)
  /\ (read_guid_bytes [x01; x00; xc9; x00; x42; x01; x01; x00]
     = Ok (Some (201 :: lit "0001B00101"))
   /\ write_guid_bytes (Some (201 :: lit "0001B00101"))
     = Ok [x01; x00; xc3; x89; x00; x42; x01; x01; x00])
  /\ (read_guid_bytes [x01; x00; x41; x00; x42; x64; x01; x00]
     = Ok (Some (lit "A0001B001100"))
   /\ write_guid_bytes (Some (lit "A0001B001100"))
     = Ok [x01; x00; x41; x00; x42; x0a; x01; x00])
  /\ (read_guid_bytes [x01; x00; x41; x00; x42; x01; xe8; x03]
     = Ok (Some (lit "A0001B100001"))
   /\ write_guid_bytes (Some (lit "A0001B100001"))
     = Ok [x01; x00; x41; x00; x42; x00; x64; x00]).
Proof. repeat split; try reflexivity; discriminate. Qed.

(** ** The record codec *)

(** One step through a body of the record codec: a test of the
    dispatch chain, a read from the stream, or a call that may raise. *)
Ltac step_result :=
  match goal with
  | |- context [if startswith ?a ?b then _ else _] => destruct (startswith a b)
  | |- context [if str_eqb ?a ?b then _ else _] => destruct (str_eqb a b)
  | |- context [read_bytes ?b ?n] => destruct (read_bytes b n)
  | |- context [let (_, _) := ?p in _] => is_var p; destruct p
  | |- context [bind ?m _] =>
      lazymatch m with
      | bind _ _ => fail
      | read_record_loop _ _ _ _ _ => fail
      | write_record_loop _ _ _ _ => fail
      | _ => destruct m as [?|?|]; cbn [bind]
      end
  end.

Lemma read_record_loop_app (fuel : nat) (self : instance) (pre post : list (str * str)) :
  forall record buffer,
    read_record_loop fuel self (pre ++ post) record buffer =
    ('(r, b) <- read_record_loop fuel self pre record buffer ;;
     read_record_loop fuel self post r b).
Proof.
  induction pre as [|[field field_type] pre IH]; intros record buffer;
    [reflexivity|].
  cbn [app read_record_loop].
  repeat step_result; try reflexivity; apply IH.
Qed.

Lemma read_record_loop_unknown (fuel : nat) (self : instance)
    (field field_type : str) (items : list (str * str)) (record : dict)
    (buffer : BytesIO) :
  unknown_tag field_type = true ->
  read_record_loop fuel self ((field, field_type) :: items) record buffer =
  read_record_loop fuel self items record buffer.
Proof.
  unfold unknown_tag. intros H.
  repeat (apply andb_true_iff in H; destruct H as [H ?]).
  cbn [read_record_loop].
  repeat match goal with
         | E : negb ?c = true |- _ => apply negb_true_iff in E; rewrite E
         end.
  reflexivity.
Qed.

Lemma has_key_setitem (d : dict) (key k : str) (v : value) :
  has_key (setitem d key v) k = has_key d k || str_eqb key k.
Proof.
  induction d as [|[k0 v0] d IH]; simpl.
  - rewrite orb_false_r. reflexivity.
  - destruct (str_eqb k0 key) eqn:E; simpl.
    + apply str_eqb_eq in E. subst k0.
      destruct (str_eqb key k); simpl; [reflexivity|].
      rewrite orb_false_r. reflexivity.
    + rewrite IH. rewrite orb_assoc. reflexivity.
Qed.

Lemma read_record_loop_keys (fuel : nat) (self : instance) (items : list (str * str)) :
  forall record buffer record' buffer' k,
    read_record_loop fuel self items record buffer = Ok (record', buffer') ->
    has_key record' k = true ->
    has_key record k = true \/ In k (map fst items).
Proof.
  induction items as [|[field field_type] items IH];
    intros record buffer record' buffer' k Hr Hk.
  - injection Hr as <- <-. left. exact Hk.
  - cbn [read_record_loop] in Hr. cbn [map fst In].
    repeat match type of Hr with
           | context [if startswith ?a ?b then _ else _] => destruct (startswith a b)
           | context [if str_eqb ?a ?b then _ else _] => destruct (str_eqb a b)
           | context [read_bytes ?b ?n] => destruct (read_bytes b n)
           | context [let (_, _) := ?p in _] => is_var p; destruct p
           | context [bind ?m _] =>
               lazymatch m with
               | bind _ _ => fail
               | read_record_loop _ _ _ _ _ => fail
               | _ => destruct m as [?|?|]; cbn [bind] in Hr
               end
           end;
      try discriminate;
      (destruct (IH _ _ _ _ _ Hr Hk) as [Hin|Hin]; [|right; right; exact Hin]);
      try (rewrite has_key_setitem in Hin; apply orb_true_iff in Hin;
           destruct Hin as [Hin|Hin];
           [left; exact Hin | right; left; apply str_eqb_eq; exact Hin]).
    left. exact Hin.
Qed.

(** C5, as the code has it: a field whose type starts with neither
    "int" nor "uint" and is none of "len_string", "null_string", "guid",
    "series_guid" is not an error for [read_record]. The field is
    skipped: the call behaves as on the schema without it, and when no
    other field has its name the returned record has no entry for it. *)
Theorem read_record_skips_unknown_tag (fuel : nat) (self : instance)
    (pre post : list (str * str)) (field field_type : str) (buffer : BytesIO) :
  unknown_tag field_type = true ->
  read_record fuel self (pre ++ (field, field_type) :: post) buffer
  = read_record fuel self (pre ++ post) buffer
  /\ (~ In field (map fst (pre ++ post)) ->
      forall record buffer',
        read_record fuel self (pre ++ (field, field_type) :: post) buffer
        = Ok (record, buffer') ->
        has_key record field = false).
Proof.
  intros Hu.
  assert (Heq : read_record fuel self (pre ++ (field, field_type) :: post) buffer
                = read_record fuel self (pre ++ post) buffer).
  { unfold read_record. rewrite !read_record_loop_app.
    destruct (read_record_loop fuel self pre [] buffer) as [[r b]| |];
      cbn [bind]; try reflexivity.
    apply read_record_loop_unknown. exact Hu. }
  split; [exact Heq|].
  intros Hnot record buffer' Hr. rewrite Heq in Hr.
  destruct (has_key record field) eqn:Hk; [|reflexivity].
  destruct (read_record_loop_keys _ _ _ _ _ _ _ _ Hr Hk) as [H|H].
  - discriminate.
  - contradiction.
Qed.

Lemma read_record_skips_unknown_tag_witness :
  unknown_tag (lit "float") = true /\
  (read_record 0 (__init__ C_GundamDataFile None None None)
     ([(lit "n", lit "uint1")] ++ (lit "x", lit "float") :: [(lit "m", lit "uint1")])
     (mkBytesIO [x07; x09] 0)
   = read_record 0 (__init__ C_GundamDataFile None None None)
       ([(lit "n", lit "uint1")] ++ [(lit "m", lit "uint1")])
       (mkBytesIO [x07; x09] 0)
   /\ (~ In (lit "x") (map fst ([(lit "n", lit "uint1")] ++ [(lit "m", lit "uint1")])) ->
       forall record buffer',
         read_record 0 (__init__ C_GundamDataFile None None None)
           ([(lit "n", lit "uint1")] ++ (lit "x", lit "float") :: [(lit "m", lit "uint1")])
           (mkBytesIO [x07; x09] 0)
         = Ok (record, buffer') ->
         has_key record (lit "x") = false)).
Proof.
  split; [reflexivity|].
  apply (read_record_skips_unknown_tag 0 (__init__ C_GundamDataFile None None None)
           [(lit "n", lit "uint1")] [(lit "m", lit "uint1")]
           (lit "x") (lit "float") (mkBytesIO [x07; x09] 0)).
  reflexivity.
Defined.

(** C5 fails on the schema [{"n": "uint1", "x": "float", "m": "uint1"}]:
    [read_record] returns a record without ["x"] and raises nothing. *)
Lemma read_record_unknown_tag_not_fatal :
  read_record 0 (__init__ C_GundamDataFile None None None)
    [(lit "n", lit "uint1"); (lit "x", lit "float"); (lit "m", lit "uint1")]
    (mkBytesIO [x07; x09] 0)
  = Ok ([(lit "n", VInt 7); (lit "m", VInt 9)], mkBytesIO [x07; x09] 2).
Proof. reflexivity. Qed.

(** A width that is not a digit is an error: the type starts with
    "int" or "uint" and [int(field_type[-1])] raises. *)
Lemma read_record_loop_bad_width (fuel : nat) (self : instance)
    (field field_type : str) (items : list (str * str)) (record : dict)
    (buffer : BytesIO) (c : Z) :
  startswith field_type (lit "int") || startswith field_type (lit "uint") = true ->
  last_char field_type = Ok c ->
  int_of_str [c] = Raise ValueError ->
  read_record_loop fuel self ((field, field_type) :: items) record buffer
  = Raise ValueError.
Proof.
  intros Hs Hc Hi. cbn [read_record_loop]. rewrite Hc. cbn [bind]. rewrite Hi.
  cbn [bind]. apply orb_true_iff in Hs.
  destruct (startswith field_type (lit "int")); [reflexivity|].
  destruct Hs as [Hs|Hs]; [discriminate|]. rewrite Hs. reflexivity.
Qed.

(** C1 at four one-field schemas, one for each string-like type, with a
    record that has a value for the field: [write_record] encodes the
    name of the field, not the record's value. For "guid" and
    "series_guid" the name is not an identifier and the call raises. *)
Theorem write_record_encodes_field_name :
  (write_record (__init__ C_GundamDataFile None None None)
     [(lit "name", lit "null_string")] [(lit "name", VStr (lit "abc"))]
   = Ok [x6e; x61; x6d; x65; x00]
   /\ write_string_null_term (__init__ C_GundamDataFile None None None) (lit "abc")
   = Ok [x61; x62; x63; x00])
  /\ (write_record (__init__ C_GundamDataFile None None None)
        [(lit "name", lit "len_string")] [(lit "name", VStr (lit "abc"))]
      = Ok [x04; x6e; x61; x6d; x65]
      /\ write_string_length (__init__ C_GundamDataFile None None None) (lit "abc")
      = Ok [x03; x61; x62; x63])
  /\ (write_record (__init__ C_GundamDataFile None None None)
        [(lit "unit", lit "guid")] [(lit "unit", VStr (lit "A0001B00101"))]
      = Raise ValueError
      /\ write_guid_bytes (Some (lit "A0001B00101"))
      = Ok [x01; x00; x41; x00; x42; x01; x01; x00])
  /\ (write_record (__init__ C_GundamDataFile None None None)
        [(lit "series", lit "series_guid")] [(lit "series", VStr (lit "A0042"))]
      = Raise ValueError
      /\ write_series_bytes (lit "A0042") = Ok [x2a; x00; x41; x00]).
Proof. repeat split; reflexivity. Qed.

(** The string-like branches of [write_record] do not look at the
    record at all. *)
Lemma write_record_ignores_record (self : instance) (field field_type : str)
    (record record' : dict) :
  In field_type [lit "len_string"; lit "null_string"; lit "guid"; lit "series_guid"] ->
  write_record self [(field, field_type)] record
  = write_record self [(field, field_type)] record'.
Proof.
  intros H. cbn [In] in H.
  destruct H as [<-|[<-|[<-|[<-|[]]]]]; reflexivity.
Qed.

(** ** Null-terminated strings *)

Lemma read_bytes_1_cons (d : bytes) (p : Z) (b : byte) (rest : bytes) :
  0 <= p ->
  skipn (Z.to_nat p) d = b :: rest ->
  read_bytes (mkBytesIO d p) 1 = ([b], mkBytesIO d (p + 1))
  /\ skipn (Z.to_nat (p + 1)) d = rest.
Proof.
  intros Hp Hs. unfold read_bytes. cbn [data pos]. rewrite Hs. split.
  - reflexivity.
  - rewrite Z2Nat.inj_add by lia. change (Z.to_nat 1) with 1%nat.
    rewrite Nat.add_comm, <- skipn_skipn, Hs. reflexivity.
Qed.

Lemma read_bytes_1_nil (d : bytes) (p : Z) :
  skipn (Z.to_nat p) d = [] ->
  read_bytes (mkBytesIO d p) 1 = ([], mkBytesIO d p).
Proof.
  intros Hs. unfold read_bytes. cbn [data pos]. rewrite Hs. cbn.
  rewrite Z.add_0_r. reflexivity.
Qed.

Lemma null_term_loop_found (d : bytes) (k : nat) :
  forall fuel p all_bytes,
    0 <= p ->
    first_null (skipn (Z.to_nat p) d) = Some k ->
    (k < fuel)%nat ->
    null_term_loop fuel (mkBytesIO d p) all_bytes
    = Ok (all_bytes ++ firstn k (skipn (Z.to_nat p) d),
          mkBytesIO d (p + Z.of_nat k + 1)).
Proof.
  induction k as [|k IH]; intros fuel p all_bytes Hp Hf Hk;
    (destruct fuel as [|fuel]; [lia|]);
    destruct (skipn (Z.to_nat p) d) as [|b rest] eqn:Hs; try discriminate;
    cbn [first_null] in Hf;
    destruct (read_bytes_1_cons d p b rest Hp Hs) as [Hr Hs'];
    cbn [null_term_loop]; rewrite Hr; cbn [bytes_eqb];
    destruct (byte_eqb b x00) eqn:Eb.
  - rewrite app_nil_r, Z.add_0_r. reflexivity.
  - destruct (first_null rest); discriminate.
  - discriminate.
  - cbn [andb]. destruct (first_null rest) as [k'|] eqn:Hf'; [|discriminate].
    injection Hf as ->. rewrite (IH fuel (p + 1) (all_bytes ++ [b])).
    + cbn [firstn]. rewrite <- app_assoc. cbn [app].
      rewrite Hs'. f_equal. f_equal. f_equal. lia.
    + lia.
    + rewrite Hs'. exact Hf'.
    + lia.
Qed.

Lemma null_term_loop_not_found (d : bytes) :
  forall fuel p all_bytes,
    0 <= p ->
    first_null (skipn (Z.to_nat p) d) = None ->
    null_term_loop fuel (mkBytesIO d p) all_bytes = OutOfFuel.
Proof.
  induction fuel as [|fuel IH]; intros p all_bytes Hp Hf; [reflexivity|].
  cbn [null_term_loop].
  destruct (skipn (Z.to_nat p) d) as [|b rest] eqn:Hs.
  - rewrite (read_bytes_1_nil d p Hs). cbn [bytes_eqb].
    apply IH; [assumption|]. rewrite Hs. reflexivity.
  - destruct (read_bytes_1_cons d p b rest Hp Hs) as [Hr Hs'].
    rewrite Hr. cbn [bytes_eqb first_null] in *.
    destruct (byte_eqb b x00); [discriminate|]. cbn [andb].
    apply IH; [lia|]. rewrite Hs'. destruct (first_null rest); [discriminate|].
    reflexivity.
Qed.

Lemma first_null_spec (bs : bytes) :
  forall k, first_null bs = Some k ->
  Forall (fun b => b <> x00) (firstn k bs) /\ nth_error bs k = Some x00.
Proof.
  induction bs as [|b bs IH]; intros k Hk; [discriminate|].
  cbn [first_null] in Hk. destruct (byte_eqb b x00) eqn:Eb.
  - injection Hk as <-. apply byte_eqb_eq in Eb. subst b.
    split; [constructor | reflexivity].
  - destruct (first_null bs) as [k'|]; [|discriminate].
    injection Hk as <-. destruct (IH k' eq_refl) as [H1 H2].
    split; [|exact H2]. cbn [firstn]. constructor; [|exact H1].
    intros ->. rewrite (proj2 (byte_eqb_eq x00 x00) eq_refl) in Eb. discriminate.
Qed.

(** C6, as the code has it: [read_string_null_term] reads from the
    absolute position [offset + self._start_pos], wherever the cursor
    is. When a zero byte follows that position, [k] bytes further, the
    bytes read are exactly the [k] bytes before it, the result is their
    UTF-8 decoding and the cursor ends just past the terminator. *)
Theorem read_string_null_term_from_start_pos (fuel : nat) (self : instance)
    (buffer : BytesIO) (offset : Z) (k : nat) :
  0 <= offset + _start_pos self ->
  first_null (skipn (Z.to_nat (offset + _start_pos self)) (data buffer)) = Some k ->
  (k < fuel)%nat ->
  read_string_null_term fuel self buffer offset
  = (output_string <-
       utf8_decode (firstn k (skipn (Z.to_nat (offset + _start_pos self))
                                    (data buffer))) ;;
     Ok (output_string,
         mkBytesIO (data buffer) (offset + _start_pos self + Z.of_nat k + 1)))
  /\ Forall (fun b => b <> x00)
       (firstn k (skipn (Z.to_nat (offset + _start_pos self)) (data buffer)))
  /\ nth_error (skipn (Z.to_nat (offset + _start_pos self)) (data buffer)) k
     = Some x00.
Proof.
  intros Hp Hf Hk. split; [|exact (first_null_spec _ _ Hf)].
  unfold read_string_null_term, seek.
  destruct (Z.ltb_spec (offset + _start_pos self) 0) as [?|_]; [lia|].
  cbn [bind].
  rewrite (null_term_loop_found (data buffer) k fuel _ [] Hp Hf Hk).
  reflexivity.
Qed.

Lemma read_string_null_term_from_start_pos_witness :
  read_string_null_term 8 (__init__ C_GundamDataFile None None None)
    (mkBytesIO [x41; x42; x00; x43; x44; x00] 3) 0
  = Ok (lit "AB", mkBytesIO [x41; x42; x00; x43; x44; x00] 3).
Proof.
  apply (read_string_null_term_from_start_pos 8
           (__init__ C_GundamDataFile None None None)
           (mkBytesIO [x41; x42; x00; x43; x44; x00] 3) 0 2);
    [vm_compute; discriminate | reflexivity | lia].
Defined.

(** Without a terminator at or after that position the loop never
    ends: no amount of fuel gives a result. *)
Lemma read_string_null_term_unterminated (fuel : nat) (self : instance)
    (buffer : BytesIO) (offset : Z) :
  0 <= offset + _start_pos self ->
  first_null (skipn (Z.to_nat (offset + _start_pos self)) (data buffer)) = None ->
  read_string_null_term fuel self buffer offset = OutOfFuel.
Proof.
  intros Hp Hf. unfold read_string_null_term, seek.
  destruct (Z.ltb_spec (offset + _start_pos self) 0) as [?|_]; [lia|].
  cbn [bind]. rewrite (null_term_loop_not_found (data buffer) fuel _ [] Hp Hf).
  reflexivity.
Qed.

(** C6 fails when the cursor is not at [self._start_pos]. With the
    stream [b"AB\x00CD\x00"], the cursor at 3 and offset 0, the string
    that starts at the cursor is "CD" and [read_string_null_term]
    returns "AB"; and [read_record] on [{"n": "uint1", "s": "null_string"}]
    over [b"\x07CD\x00"] reads the string back from position 0, not from
    position 1 where the field begins. *)
Lemma read_string_null_term_ignores_cursor :
  (read_string_null_term 8 (__init__ C_GundamDataFile None None None)
     (mkBytesIO [x41; x42; x00; x43; x44; x00] 3) 0
   = Ok (lit "AB", mkBytesIO [x41; x42; x00; x43; x44; x00] 3)
   /\ skipn 3 [x41; x42; x00; x43; x44; x00] = [x43; x44; x00]
   /\ utf8_decode [x43; x44] = Ok (lit "CD"))
  /\ (read_record 8 (__init__ C_GundamDataFile None None None)
        [(lit "n", lit "uint1"); (lit "s", lit "null_string")]
        (mkBytesIO [x07; x43; x44; x00] 0)
      = Ok ([(lit "n", VInt 7); (lit "s", VStr (7 :: lit "CD"))],
            mkBytesIO [x07; x43; x44; x00] 4)
      /\ utf8_decode [x43; x44] = Ok (lit "CD")).
Proof. repeat split; reflexivity. Qed.

(** ** Length-prefixed strings *)

(** C4 at the one-character string "é" (U+00E9, two bytes in UTF-8):
    the length byte written is 1, the number of characters, not 2, and
    [read_string_length] of the three bytes raises. A string of 200 such
    characters is written without error although its encoding takes 400
    bytes. *)
Theorem write_string_length_counts_characters :
  utf8_encode [233] = Ok [xc3; xa9]
  /\ write_string_length (__init__ C_GundamDataFile None None None) [233]
     = Ok [x01; xc3; xa9]
  /\ read_string_length (__init__ C_GundamDataFile None None None)
       (mkBytesIO [x01; xc3; xa9] 0)
     = Raise UnicodeDecodeError
  /\ exists b,
       write_string_length (__init__ C_GundamDataFile None None None)
         (repeat 233 200) = Ok (xc8 :: b)
       /\ utf8_encode (repeat 233 200) = Ok b
       /\ List.length b = 400%nat.
Proof.
  repeat split; try reflexivity.
  eexists. repeat split; vm_compute; reflexivity.
Qed.

Lemma utf8_encode_ascii_str (s : str) :
  ascii_str s -> utf8_encode s = Ok (map byte_of_Z s).
Proof.
  induction 1 as [|c s Hc Hs IH]; [reflexivity|].
  cbn [utf8_encode map]. unfold utf8_encode_char.
  destruct (Z.ltb_spec c 0); [lia|]. destruct (Z.ltb_spec 1114111 c); [lia|].
  destruct (Z.ltb_spec c 128); [|lia]. cbn [orb bind]. rewrite IH. reflexivity.
Qed.

Lemma utf8_decode_ascii_str (s : str) :
  ascii_str s -> utf8_decode (map byte_of_Z s) = Ok s.
Proof.
  induction 1 as [|c s Hc Hs IH]; [reflexivity|].
  cbn [utf8_decode map]. rewrite byte_to_of_Z by lia.
  destruct (Z.ltb_spec c 128); [|lia]. rewrite IH. reflexivity.
Qed.

Lemma read_bytes_rest (d : bytes) (p : Z) (rest : bytes) (n : Z) :
  0 <= p -> skipn (Z.to_nat p) d = rest -> n = Z.of_nat (List.length rest) ->
  read_bytes (mkBytesIO d p) n = (rest, mkBytesIO d (p + n)).
Proof.
  intros Hp Hs ->. unfold read_bytes. cbn [data pos]. rewrite Hs.
  destruct (Z.ltb_spec (Z.of_nat (List.length rest)) 0); [lia|].
  rewrite Nat2Z.id, firstn_all. reflexivity.
Qed.

(** On strings of ASCII characters the two lengths agree, and there the
    length-prefixed codec does round-trip. *)
Lemma string_length_ascii_roundtrip (self : instance) (s : str) :
  ascii_str s -> (List.length s <= 255)%nat ->
  exists b,
    write_string_length self s = Ok b
    /\ b = byte_of_Z (Z.of_nat (List.length s)) :: map byte_of_Z s
    /\ read_string_length self (mkBytesIO b 0)
       = Ok (s, mkBytesIO b (1 + Z.of_nat (List.length s))).
Proof.
  intros Ha Hl. eexists. split; [|split; [reflexivity|]].
  - unfold write_string_length, write_int.
    rewrite to_bytes_u8 by lia. cbn [bind le_bytes].
    rewrite utf8_encode_ascii_str by assumption. cbn [bind app].
    rewrite Z.mod_small by lia. reflexivity.
  - destruct (read_bytes_1_cons
                (byte_of_Z (Z.of_nat (List.length s)) :: map byte_of_Z s) 0
                (byte_of_Z (Z.of_nat (List.length s))) (map byte_of_Z s))
      as [Hr Hs]; [lia | reflexivity |].
    unfold read_string_length. rewrite Hr.
    unfold read_int. rewrite from_bytes_unsigned. cbn [le_value].
    rewrite byte_to_of_Z by lia. rewrite Z.mul_0_r, Z.add_0_r.
    rewrite (read_bytes_rest _ _ (map byte_of_Z s)) by
      (rewrite ?length_map; solve [lia | exact Hs]).
    rewrite utf8_decode_ascii_str by assumption. reflexivity.
Qed.

(** ** The string table *)

Lemma to_bytes_u32_inv (v : Z) (b : bytes) :
  to_bytes v 4 little false = Ok b ->
  b = le_bytes 4 v /\ 0 <= v < 4294967296.
Proof.
  unfold to_bytes. cbn [Z.ltb Z.compare negb].
  change (2 ^ (8 * 4)) with 4294967296.
  destruct (Z.leb_spec 0 v); destruct (Z.ltb_spec v 4294967296);
    cbn [andb]; try discriminate.
  intros [= <-]. split; [reflexivity | lia].
Qed.

Lemma index_loop_layout (records : list dict) :
  forall string_bytes string_start out string_end,
    StringTBL.index_loop records string_bytes string_start = Ok (out, string_end) ->
    exists items,
      Forall2 (fun r it => record_fields r = Ok it) records items
      /\ out = string_bytes ++ entries items string_start
      /\ pointers_fit items string_start.
Proof.
  induction records as [|record records IH];
    intros string_bytes string_start out string_end H.
  - injection H as <- <-. exists []. rewrite app_nil_r. repeat constructor.
  - cbn [StringTBL.index_loop] in H.
    destruct (getitem record (lit "index")) as [iv| |] eqn:E1; try discriminate.
    cbn [bind] in H.
    destruct (int_of_value iv) as [i| |] eqn:E2; try discriminate.
    cbn [bind] in H.
    destruct (to_bytes i 4 little false) as [ib| |] eqn:E3; try discriminate.
    cbn [bind] in H.
    destruct (to_bytes string_start 4 little false) as [pb| |] eqn:E4;
      try discriminate.
    cbn [bind] in H.
    destruct (getitem record (lit "string")) as [sv| |] eqn:E5; try discriminate.
    cbn [bind] in H.
    destruct (encode_value sv) as [sb| |] eqn:E6; try discriminate.
    cbn [bind] in H.
    apply to_bytes_u32_inv in E3. destruct E3 as [-> Hi].
    apply to_bytes_u32_inv in E4. destruct E4 as [-> Hp].
    destruct (IH _ _ _ _ H) as (items & HF & -> & Hfit).
    exists ((i, sb) :: items). split; [|split].
    + constructor; [|exact HF]. unfold record_fields.
      rewrite E1. cbn [bind]. rewrite E2. cbn [bind]. rewrite E5. cbn [bind].
      rewrite E6. reflexivity.
    + cbn [entries]. rewrite <- !app_assoc. reflexivity.
    + cbn [pointers_fit]. auto.
Qed.

Lemma blob_loop_layout (records : list dict) :
  forall string_bytes out items,
    StringTBL.blob_loop records string_bytes = Ok out ->
    Forall2 (fun r it => record_fields r = Ok it) records items ->
    out = string_bytes ++ blob items.
Proof.
  induction records as [|record records IH]; intros string_bytes out items H HF.
  - inversion HF. subst. injection H as <-. rewrite app_nil_r. reflexivity.
  - inversion HF as [|r [i sb] rs its Hr HF']. subst.
    cbn [StringTBL.blob_loop] in H. unfold record_fields in Hr.
    destruct (getitem record (lit "index")) as [iv| |]; try discriminate.
    cbn [bind] in Hr.
    destruct (int_of_value iv) as [i'| |]; try discriminate.
    cbn [bind] in Hr.
    destruct (getitem record (lit "string")) as [sv| |]; try discriminate.
    cbn [bind] in Hr, H.
    destruct (encode_value sv) as [sb'| |]; try discriminate.
    cbn [bind] in Hr, H. injection Hr as -> ->.
    rewrite (IH _ _ _ H HF'). cbn [blob]. rewrite <- !app_assoc. reflexivity.
Qed.

Lemma write_layout (self : instance) (h : bytes) (records : list dict) (bs : bytes) :
  header self = Some h ->
  StringTBL._write self records = Ok bs ->
  let count := Z.of_nat (List.length records) in
  exists items,
    Forall2 (fun r it => record_fields r = Ok it) records items
    /\ 0 <= count < 4294967296
    /\ pointers_fit items (12 + count * 8 + padding_of count)
    /\ bs = h ++ le_bytes 4 count
            ++ entries items (12 + count * 8 + padding_of count)
            ++ repeat x00 (Z.to_nat (padding_of count))
            ++ blob items.
Proof.
  intros Hh H count. unfold StringTBL._write in H. rewrite Hh in H.
  fold count in H.
  destruct (to_bytes count 4 little false) as [cb| |] eqn:Ec; try discriminate.
  cbn [bind] in H. fold (padding_of count) in H.
  destruct (StringTBL.index_loop records (h ++ cb)
              (12 + count * 8 + padding_of count)) as [[out e]| |] eqn:Ei;
    try discriminate.
  cbn [bind] in H.
  apply to_bytes_u32_inv in Ec. destruct Ec as [-> Hc].
  destruct (index_loop_layout _ _ _ _ _ Ei) as (items & HF & -> & Hfit).
  exists items. repeat split; try assumption; try lia.
  rewrite (blob_loop_layout _ _ _ _ H HF). rewrite <- !app_assoc. reflexivity.
Qed.

Lemma slice_app_r {A : Type} (a b : list A) (i j : nat) :
  slice (a ++ b) (List.length a + i) (List.length a + j) = slice b i j.
Proof.
  unfold slice. rewrite skipn_app.
  rewrite skipn_all2 by lia.
  replace (List.length a + i - List.length a)%nat with i by lia.
  replace (List.length a + j - (List.length a + i))%nat with (j - i)%nat by lia.
  reflexivity.
Qed.

Lemma slice_app_l {A : Type} (a b : list A) (i j : nat) :
  (j <= List.length a)%nat -> slice (a ++ b) i j = slice a i j.
Proof.
  intros H. unfold slice. rewrite skipn_app, firstn_app, length_skipn.
  replace (j - i - (List.length a - i))%nat with 0%nat by lia.
  rewrite firstn_O, app_nil_r. reflexivity.
Qed.

Lemma nth_error_app_r {A : Type} (a b : list A) (i : nat) :
  nth_error (a ++ b) (List.length a + i) = nth_error b i.
Proof.
  rewrite nth_error_app2 by lia. f_equal. lia.
Qed.

Lemma length_entries (items : list (Z * bytes)) :
  forall string_start,
    List.length (entries items string_start) = (8 * List.length items)%nat.
Proof.
  induction items as [|[i sb] items IH]; intros string_start; [reflexivity|].
  cbn [entries]. rewrite !length_app, !length_le_bytes, IH. cbn [List.length]. lia.
Qed.

Lemma entries_nth (k : nat) :
  forall items string_start i sb,
    nth_error items k = Some (i, sb) ->
    pointers_fit items string_start ->
    slice (entries items string_start) (8 * k) (8 * k + 4) = le_bytes 4 i
    /\ slice (entries items string_start) (8 * k + 4) (8 * k + 8)
       = le_bytes 4 (string_start + Z.of_nat (blob_offset items k))
    /\ 0 <= i < 4294967296
    /\ 0 <= string_start + Z.of_nat (blob_offset items k) < 4294967296.
Proof.
  induction k as [|k IH]; intros items string_start i sb Hn Hfit;
    destruct items as [|[i0 sb0] items]; try discriminate.
  - injection Hn as -> ->. cbn [pointers_fit] in Hfit.
    unfold blob_offset. cbn [firstn blob List.length]. rewrite Z.add_0_r.
    repeat split; try lia; reflexivity.
  - cbn [nth_error] in Hn. cbn [pointers_fit] in Hfit.
    destruct Hfit as (_ & _ & Hfit).
    destruct (IH items _ i sb Hn Hfit) as (H1 & H2 & H3 & H4).
    cbn [entries]. rewrite app_assoc.
    replace (8 * S k)%nat
      with (List.length (le_bytes 4 i0 ++ le_bytes 4 string_start) + 8 * k)%nat
      by (rewrite length_app, !length_le_bytes; lia).
    rewrite <- !Nat.add_assoc, !slice_app_r.
    unfold blob_offset in *. cbn [firstn blob].
    rewrite length_app. cbn [List.length].
    replace (string_start
             + Z.of_nat (List.length sb0 + S (List.length (blob (firstn k items)))))
      with (string_start + (Z.of_nat (List.length sb0) + 1)
            + Z.of_nat (List.length (blob (firstn k items)))) by lia.
    auto.
Qed.

Lemma blob_nth (k : nat) :
  forall items i sb,
    nth_error items k = Some (i, sb) ->
    slice (blob items) (blob_offset items k) (blob_offset items k + List.length sb) = sb
    /\ nth_error (blob items) (blob_offset items k + List.length sb) = Some x00.
Proof.
  induction k as [|k IH]; intros items i sb Hn;
    destruct items as [|[i0 sb0] items]; try discriminate.
  - injection Hn as -> ->. unfold blob_offset. cbn [firstn blob List.length].
    split.
    + rewrite slice_app_l by lia. unfold slice. cbn [skipn].
      rewrite Nat.sub_0_r. apply firstn_all.
    + rewrite nth_error_app2 by lia. rewrite Nat.sub_diag. reflexivity.
  - cbn [nth_error] in Hn. destruct (IH items i sb Hn) as [H1 H2].
    unfold blob_offset in *. cbn [firstn blob].
    change (sb0 ++ x00 :: blob (firstn k items))
      with (sb0 ++ [x00] ++ blob (firstn k items)).
    change (sb0 ++ x00 :: blob items) with (sb0 ++ [x00] ++ blob items).
    rewrite !app_assoc, length_app, <- !Nat.add_assoc.
    rewrite slice_app_r, nth_error_app_r. auto.
Qed.

Lemma Forall2_nth_error {A B : Type} (R : A -> B -> Prop) (l : list A) (l' : list B) :
  Forall2 R l l' ->
  forall k x, nth_error l k = Some x ->
  exists y, nth_error l' k = Some y /\ R x y.
Proof.
  induction 1 as [|a b l l' Hab HF IH]; intros k x Hk.
  - destruct k; discriminate.
  - destruct k as [|k]; cbn [nth_error] in *.
    + injection Hk as <-. eauto.
    + apply IH. exact Hk.
Qed.

Lemma padding_of_range (count : Z) :
  0 <= count ->
  1 <= padding_of count <= 16 /\ (12 + count * 8 + padding_of count) mod 16 = 0.
Proof.
  intros Hc. unfold padding_of.
  pose proof (Z.mod_pos_bound (12 + count * 8) 16).
  split; [lia|].
  replace (12 + count * 8 + (16 - (12 + count * 8) mod 16))
    with (((12 + count * 8) / 16 + 1) * 16)
    by (pose proof (Z.div_mod (12 + count * 8) 16); lia).
  apply Z.mod_mul. lia.
Qed.

(** The write half of C2: in the bytes [_write] produces, the entry of
    record [k] holds its index and a pointer, and the pointer is the
    offset from the start of the buffer at which the record's UTF-8
    bytes begin, closed by a zero byte. *)
Lemma write_pointers (self : instance) (h : bytes) (records : list dict) (bs : bytes) :
  header self = Some h -> List.length h = 8%nat ->
  StringTBL._write self records = Ok bs ->
  forall k record, nth_error records k = Some record ->
  exists i sb,
    record_fields record = Ok (i, sb)
    /\ from_bytes (slice bs (12 + 8 * k) (12 + 8 * k + 4)) little false = i
    /\ exists pointer : nat,
         from_bytes (slice bs (12 + 8 * k + 4) (12 + 8 * k + 8)) little false
         = Z.of_nat pointer
         /\ slice bs pointer (pointer + List.length sb) = sb
         /\ nth_error bs (pointer + List.length sb) = Some x00.
Proof.
  intros Hh Hl Hw k record Hk.
  destruct (write_layout self h records bs Hh Hw) as (items & HF & Hc & Hfit & ->).
  destruct (Forall2_nth_error _ _ _ HF k record Hk) as ([i sb] & Hit & Hrec).
  exists i, sb. split; [exact Hrec|].
  set (count := Z.of_nat (List.length records)) in *.
  set (start := 12 + count * 8 + padding_of count) in *.
  destruct (entries_nth k items start i sb Hit Hfit) as (E1 & E2 & Ri & Rp).
  assert (Hk' : (k < List.length items)%nat)
    by (apply nth_error_Some; rewrite Hit; discriminate).
  assert (Hlen : List.length items = List.length records)
    by (symmetry; exact (Forall2_length HF)).
  assert (L12 : List.length (h ++ le_bytes 4 count) = 12%nat)
    by (rewrite length_app, length_le_bytes; lia).
  rewrite !from_bytes_unsigned.
  rewrite (app_assoc h). rewrite <- L12.
  rewrite <- !Nat.add_assoc, !slice_app_r.
  rewrite !slice_app_l by (rewrite length_entries; lia).
  rewrite E1, E2. rewrite !le_value_le_bytes by (simpl; lia).
  split; [reflexivity|].
  destruct (padding_of_range count) as [Hpad _]; [lia|].
  exists (List.length ((h ++ le_bytes 4 count) ++ entries items start
                       ++ repeat x00 (Z.to_nat (padding_of count)))
          + blob_offset items k)%nat.
  split.
  - rewrite !length_app, length_entries, repeat_length, length_le_bytes, Hl.
    subst start count. lia.
  - destruct (blob_nth k items i sb Hit) as [B1 B2].
    rewrite !(app_assoc _ _ (blob items)).
    rewrite <- !Nat.add_assoc, slice_app_r, nth_error_app_r. auto.
Qed.

(** C9: for a non-empty list of records and the 8-byte magic of the
    class, the bytes [_write] produces are the index part (header, count
    and entries, [12 + count * 8] bytes), then between 1 and 16 bytes of
    padding, all zero, then the strings. The offset of the first
    string, which is also the pointer of the first entry, is at least
    [12 + count * 8] and a multiple of 16. *)
Theorem write_padding_invariant (self : instance) (h : bytes)
    (records : list dict) (bs : bytes) :
  header self = Some h -> List.length h = 8%nat -> records <> [] ->
  StringTBL._write self records = Ok bs ->
  exists (index_part strings_part : bytes) (padding : nat)
         (i : Z) (first_string : bytes),
    bs = index_part ++ repeat x00 padding ++ strings_part
    /\ Z.of_nat (List.length index_part) = 12 + Z.of_nat (List.length records) * 8
    /\ (1 <= padding <= 16)%nat
    /\ 12 + Z.of_nat (List.length records) * 8
       <= Z.of_nat (List.length index_part + padding)
    /\ Z.of_nat (List.length index_part + padding) mod 16 = 0
    /\ from_bytes (slice index_part 16 20) little false
       = Z.of_nat (List.length index_part + padding)
    /\ record_fields (hd [] records) = Ok (i, first_string)
    /\ firstn (List.length first_string) strings_part = first_string.
Proof.
  intros Hh Hl Hne Hw.
  destruct (write_layout self h records bs Hh Hw) as (items & HF & Hc & Hfit & ->).
  set (count := Z.of_nat (List.length records)) in *.
  set (start := 12 + count * 8 + padding_of count) in *.
  destruct (padding_of_range count) as [Hpad Hmod]; [lia|].
  destruct HF as [|record [i sb] records items Hrec HF]; [congruence|].
  exists (h ++ le_bytes 4 count ++ entries ((i, sb) :: items) start),
    (blob ((i, sb) :: items)), (Z.to_nat (padding_of count)), i, sb.
  assert (Hlen : List.length items = List.length records)
    by (symmetry; exact (Forall2_length HF)).
  assert (Lidx : Z.of_nat (List.length (h ++ le_bytes 4 count
                                         ++ entries ((i, sb) :: items) start))
                 = 12 + count * 8).
  { rewrite !length_app, length_entries, length_le_bytes.
    subst count. cbn [List.length]. lia. }
  assert (Lsum : Z.of_nat (List.length (h ++ le_bytes 4 count
                                         ++ entries ((i, sb) :: items) start)
                           + Z.to_nat (padding_of count)) = start).
  { rewrite Nat2Z.inj_add, Lidx. subst start. lia. }
  repeat split.
  - rewrite <- !app_assoc. reflexivity.
  - exact Lidx.
  - lia.
  - lia.
  - rewrite Lsum. subst start. lia.
  - rewrite Lsum. exact Hmod.
  - rewrite Lsum. cbn [pointers_fit] in Hfit. destruct Hfit as (_ & Hs & _).
    destruct (length8 h Hl) as (a0 & a1 & a2 & a3 & a4 & a5 & a6 & a7 & ->).
    rewrite from_bytes_unsigned.
    change (slice _ 16 20) with (le_bytes 4 start).
    apply le_value_le_bytes. simpl. lia.
  - exact Hrec.
  - cbn [blob]. rewrite firstn_app, Nat.sub_diag, firstn_O, app_nil_r.
    apply firstn_all.
Qed.

Lemma write_padding_invariant_witness :
  exists (index_part strings_part : bytes) (padding : nat)
         (i : Z) (first_string : bytes),
    [x00; x00; x00; x00; x00; x01; x01; x00; x01; x00; x00; x00;
     x07; x00; x00; x00; x20; x00; x00; x00;
     x00; x00; x00; x00; x00; x00; x00; x00; x00; x00; x00; x00;
     x41; x00]
    = index_part ++ repeat x00 padding ++ strings_part
    /\ Z.of_nat (List.length index_part) = 12 + 1 * 8
    /\ (1 <= padding <= 16)%nat
    /\ 12 + 1 * 8 <= Z.of_nat (List.length index_part + padding)
    /\ Z.of_nat (List.length index_part + padding) mod 16 = 0
    /\ from_bytes (slice index_part 16 20) little false
       = Z.of_nat (List.length index_part + padding)
    /\ record_fields [(lit "index", VInt 7); (lit "string", VStr (lit "A"))]
       = Ok (i, first_string)
    /\ firstn (List.length first_string) strings_part = first_string.
Proof.
  apply (write_padding_invariant (__init__ C_StringTBL None None None)
           [x00; x00; x00; x00; x00; x01; x01; x00]
           [[(lit "index", VInt 7); (lit "string", VStr (lit "A"))]]);
    [reflexivity | reflexivity | discriminate | reflexivity].
Defined.

(** [read_string] is bound by no class body. *)
Lemma read_string_undefined (self : instance) :
  self_attr self "read_string" = Raise AttributeError.
Proof. destruct self as [[] ? ? ? ?]; reflexivity. Qed.

Lemma strings_loop_raises (fuel : nat) (self : instance) (record : dict)
    (records : list dict) (buffer : BytesIO) :
  StringTBL.strings_loop fuel self (record :: records) buffer = Raise AttributeError.
Proof.
  cbn [StringTBL.strings_loop]. rewrite read_string_undefined. reflexivity.
Qed.

(** [StringTBL._read] returns only when the table has no entry: with
    one entry or more the second loop calls [self.read_string]. *)
Lemma string_table_read_returns_nothing (fuel : nat) (self : instance)
    (buffer : BytesIO) (records : list dict) (self' : instance) (buffer' : BytesIO) :
  StringTBL._read fuel self buffer = Ok (records, self', buffer') -> records = [].
Proof.
  unfold StringTBL._read.
  destruct (read_header self buffer) as [[[n s1] b1]| |]; try discriminate.
  cbn [bind].
  destruct (StringTBL.entries_loop (Z.to_nat n) 0 b1 []) as [[|r rs] b2].
  - cbn [StringTBL.strings_loop bind]. intros [= <- _ _]. reflexivity.
  - rewrite strings_loop_raises. discriminate.
Qed.

(** C2 at the table of the specification, index 1 for "A" and index 2
    for "BB": [_write] produces the 37 bytes below, with the pointers
    32 and 34 at which "A" and "BB" begin, and [_read] of those bytes
    raises AttributeError, however long it is allowed to run. *)
Theorem string_table_read_of_write_raises :
  StringTBL._write (__init__ C_StringTBL None None None)
    [ [(lit "index", VInt 1); (lit "string", VStr (lit "A"))];
      [(lit "index", VInt 2); (lit "string", VStr (lit "BB"))] ]
  = Ok [x00; x00; x00; x00; x00; x01; x01; x00; x02; x00; x00; x00;
        x01; x00; x00; x00; x20; x00; x00; x00;
        x02; x00; x00; x00; x22; x00; x00; x00;
        x00; x00; x00; x00;
        x41; x00; x42; x42; x00]
  /\ forall fuel,
       StringTBL._read fuel (__init__ C_StringTBL None None None)
         (mkBytesIO
            [x00; x00; x00; x00; x00; x01; x01; x00; x02; x00; x00; x00;
             x01; x00; x00; x00; x20; x00; x00; x00;
             x02; x00; x00; x00; x22; x00; x00; x00;
             x00; x00; x00; x00;
             x41; x00; x42; x42; x00] 0)
       = Raise AttributeError.
Proof. split; [reflexivity | intros fuel; reflexivity]. Qed.

(** ** The voice-cue table *)

Lemma int_of_str_cases (s : str) :
  int_of_str s = Raise ValueError \/ exists v, int_of_str s = Ok v.
Proof.
  unfold int_of_str.
  match goal with |- context [match ?p with Some _ => _ | None => _ end] =>
    destruct p end; eauto.
  match goal with |- context [if ?c then _ else _] => destruct c end; eauto.
Qed.

(** C8 at a voice-cue table with the one record "v001,1,2,3": [_write]
    lays the table out as the 43 bytes below, the string at pointer 32,
    and [StageVoiceTable._read] of those bytes yields no record. It
    begins with [StringTBL._read], whose second loop calls
    [self.read_string], a method no class defines: AttributeError is
    raised before any string is split, however long the decoder is
    allowed to run. *)
Theorem voice_table_read_of_write_raises :
  StringTBL._write (__init__ C_StageVoiceTable None None None)
    [ [(lit "index", VInt 1); (lit "string", VStr (lit "v001,1,2,3"))] ]
  = Ok [x54; x52; x54; x53; x00; x01; x01; x00; x01; x00; x00; x00;
        x01; x00; x00; x00; x20; x00; x00; x00;
        x00; x00; x00; x00; x00; x00; x00; x00; x00; x00; x00; x00;
        x76; x30; x30; x31; x2c; x31; x2c; x32; x2c; x33; x00]
  /\ forall fuel,
       StageVoiceTable._read fuel (__init__ C_StageVoiceTable None None None)
         (mkBytesIO
            [x54; x52; x54; x53; x00; x01; x01; x00; x01; x00; x00; x00;
             x01; x00; x00; x00; x20; x00; x00; x00;
             x00; x00; x00; x00; x00; x00; x00; x00; x00; x00; x00; x00;
             x76; x30; x30; x31; x2c; x31; x2c; x32; x2c; x33; x00] 0)
       = Raise AttributeError.
Proof. split; [reflexivity | intros fuel; reflexivity]. Qed.

(** The body of the loop of [StageVoiceTable._read], for a record that
    carries a string: the string is split on ','; with four parts or
    more, part 0 becomes [voice_id] and parts 1 to 3, read as integers,
    become [val1], [val2], [val3], further parts being ignored; with
    fewer than four parts, or a part 1 to 3 that is not an integer, the
    body raises. *)
Lemma unpack_record_spec (record : dict) (s : str) :
  getitem record (lit "string") = Ok (VStr s) ->
  (forall p0 p1 p2 p3 more v1 v2 v3,
      split 44 s = p0 :: p1 :: p2 :: p3 :: more ->
      int_of_str p1 = Ok v1 -> int_of_str p2 = Ok v2 -> int_of_str p3 = Ok v3 ->
      StageVoiceTable.unpack_record record
      = Ok (setitem
              (setitem
                 (setitem (setitem record (lit "voice_id") (VStr p0))
                          (lit "val1") (VInt v1))
                 (lit "val2") (VInt v2))
              (lit "val3") (VInt v3)))
  /\ ((List.length (split 44 s) < 4)%nat ->
      fails (StageVoiceTable.unpack_record record))
  /\ (forall k p,
        (1 <= k <= 3)%nat -> nth_error (split 44 s) k = Some p ->
        int_of_str p = Raise ValueError ->
        StageVoiceTable.unpack_record record = Raise ValueError).
Proof.
  intros Hs. unfold StageVoiceTable.unpack_record. rewrite Hs.
  cbn [bind StageVoiceTable.split_value].
  split; [|split].
  - intros p0 p1 p2 p3 more v1 v2 v3 -> H1 H2 H3.
    cbn [index nth_error bind]. rewrite H1. cbn [bind].
    rewrite H2. cbn [bind]. rewrite H3. reflexivity.
  - intros Hl. unfold fails.
    destruct (split 44 s) as [|p0 [|p1 [|p2 [|p3 more]]]];
      cbn [List.length] in Hl; try lia; cbn [index nth_error bind];
      repeat match goal with
             | |- context [bind (int_of_str ?p) _] =>
                 destruct (int_of_str_cases p) as [->|[? ->]]; cbn [bind]
             end; eauto.
  - intros k p Hk Hn Hp.
    destruct (split 44 s) as [|p0 [|p1 [|p2 [|p3 more]]]];
      destruct k as [|[|[|[|k]]]]; try lia; cbn [nth_error] in Hn;
      try discriminate; injection Hn as ->; cbn [index nth_error bind];
      repeat match goal with
             | |- context [bind (int_of_str ?q) _] =>
                 first [ rewrite Hp
                       | destruct (int_of_str_cases q) as [->|[? ->]] ];
                 cbn [bind]
             end; reflexivity.
Qed.

Lemma unpack_record_spec_witness :
  StageVoiceTable.unpack_record [(lit "string", VStr (lit "v001,1,2,3"))]
  = Ok [(lit "string", VStr (lit "v001,1,2,3"));
        (lit "voice_id", VStr (lit "v001"));
        (lit "val1", VInt 1); (lit "val2", VInt 2); (lit "val3", VInt 3)].
Proof.
  apply (proj1 (unpack_record_spec
                  [(lit "string", VStr (lit "v001,1,2,3"))]
                  (lit "v001,1,2,3") eq_refl)
           (lit "v001") (lit "1") (lit "2") (lit "3") []);
    reflexivity.
Defined.

(** The loop body on a string with five parts: "v001,1,2,3,4" is
    unpacked like "v001,1,2,3", the fifth part is dropped and nothing
    is raised. *)
Lemma unpack_record_five_parts :
  List.length (split 44 (lit "v001,1,2,3,4")) = 5%nat
  /\ StageVoiceTable.unpack_record [(lit "string", VStr (lit "v001,1,2,3,4"))]
     = Ok [(lit "string", VStr (lit "v001,1,2,3,4"));
           (lit "voice_id", VStr (lit "v001"));
           (lit "val1", VInt 1); (lit "val2", VInt 2); (lit "val3", VInt 3)]
  /\ StageVoiceTable.unpack_loop [[(lit "string", VStr (lit "v001,1,2,3,4"))]]
     = Ok [[(lit "string", VStr (lit "v001,1,2,3,4"));
            (lit "voice_id", VStr (lit "v001"));
            (lit "val1", VInt 1); (lit "val2", VInt 2); (lit "val3", VInt 3)]].
Proof. repeat split; reflexivity. Qed.

(** ** The public entry points *)

Lemma fails_bind {A B : Type} (m : exn + A) (k : A -> result B) :
  (forall a, fails (k a)) -> fails (bind (of_sum m) k).
Proof.
  intros H. destruct m as [e|a]; cbn [of_sum bind]; [|apply H].
  exists e. reflexivity.
Qed.

Lemma fails_bind_result {A B : Type} (m : result A) (k : A -> result B) :
  fails m -> fails (bind m k).
Proof. intros [e ->]. exists e. reflexivity. Qed.

Lemma fails_bind_total {A B : Type} (m : result A) (k : A -> result B) :
  (fails m \/ exists a, m = Ok a) -> (forall a, fails (k a)) -> fails (bind m k).
Proof.
  intros [[e ->]|[a ->]] H; cbn [bind]; [exists e; reflexivity | apply H].
Qed.

(** C10: on an instance of [StringTBL] or [StageVoiceTable], [read] and
    [write] are those of [GundamDataFile] and raise NotImplementedError
    for every argument; hence [read_file], [write_file], [dump] and
    [load] raise on every call, whatever the files hold. *)
Theorem table_entry_points_not_implemented (self : instance) :
  cls self = C_StringTBL \/ cls self = C_StageVoiceTable ->
  (forall buffer, self_read self buffer = Raise NotImplementedError)
  /\ (forall records, self_write self records = Raise NotImplementedError)
  /\ (forall open_rb filename, fails (read_file open_rb self filename))
  /\ (forall open_wb buffer_write records filename,
        fails (write_file open_wb buffer_write self records filename))
  /\ (forall open_rb json_dump_wt os_path_split data_filename json_filename,
        fails (dump open_rb json_dump_wt os_path_split self
                    data_filename json_filename))
  /\ (forall open_wb buffer_write (json : Type) json_load_rt json_getitem
             os_path_split json_filename data_filename,
        fails (@load open_wb buffer_write json json_load_rt json_getitem
                     os_path_split self json_filename data_filename)).
Proof.
  intros Hc.
  assert (Hr : forall buffer, self_read self buffer = Raise NotImplementedError).
  { intros buffer. unfold self_read, self_attr.
    destruct Hc as [-> | ->]; reflexivity. }
  assert (Hw : forall records, self_write self records = Raise NotImplementedError).
  { intros records. unfold self_write, self_attr.
    destruct Hc as [-> | ->]; reflexivity. }
  assert (Hrf : forall open_rb filename, fails (read_file open_rb self filename)).
  { intros open_rb filename. unfold read_file. apply fails_bind.
    intros buffer. rewrite Hr. exists NotImplementedError. reflexivity. }
  assert (Hwf : forall open_wb buffer_write records filename,
             fails (write_file open_wb buffer_write self records filename)).
  { intros open_wb buffer_write records filename. unfold write_file.
    apply fails_bind. intros _. rewrite Hw.
    exists NotImplementedError. reflexivity. }
  assert (Hjn : forall d j, fails (json_name d j) \/ exists a, json_name d j = Ok a).
  { intros d j. unfold json_name.
    destruct j as [[|c j]|]; destruct d as [d|]; eauto;
      left; exists AttributeError; reflexivity. }
  assert (Hdk : forall os_path_split d,
             fails (data_key os_path_split self d)
             \/ exists a, data_key os_path_split self d = Ok a).
  { intros os_path_split d. unfold data_key.
    destruct (filename self) as [[|c f]|]; destruct d as [d|]; eauto;
      left; exists TypeError; reflexivity. }
  repeat split; try assumption.
  - intros open_rb json_dump_wt os_path_split data_filename json_filename.
    unfold dump. apply fails_bind_total; [apply Hjn|]. intros jn.
    apply fails_bind_total; [apply Hdk|]. intros key.
    apply fails_bind_result. apply Hrf.
  - intros open_wb buffer_write json json_load_rt json_getitem os_path_split
           json_filename data_filename.
    unfold load. apply fails_bind_total; [apply Hjn|]. intros jn.
    apply fails_bind. intros j.
    apply fails_bind_total; [apply Hdk|]. intros key.
    apply fails_bind. intros records. apply Hwf.
Qed.

Lemma table_entry_points_not_implemented_witness :
  (forall buffer,
      self_read (__init__ C_StageVoiceTable None None None) buffer
      = Raise NotImplementedError)
  /\ (forall records,
        self_write (__init__ C_StageVoiceTable None None None) records
        = Raise NotImplementedError)
  /\ fails (read_file (fun _ => inr (mkBytesIO [] 0))
              (__init__ C_StageVoiceTable None None None)
              (Some (lit "voice.tbl")))
  /\ fails (write_file (fun _ => inr tt) (fun _ => inr tt)
              (__init__ C_StageVoiceTable None None None) []
              (Some (lit "voice.tbl"))).
Proof.
  pose proof (table_entry_points_not_implemented
                (__init__ C_StageVoiceTable None None None)
                (or_intror eq_refl)) as (H1 & H2 & H3 & H4 & _).
  split; [exact H1 | split; [exact H2 | split; [apply H3 | apply H4]]].
Defined.

(** * Further properties of the codec *)

(** Two outcomes that differ only in how the cursor is written. *)
Ltac same_cursor :=
  repeat match goal with
         | |- Ok _ = Ok _ => f_equal
         | |- (_, _) = (_, _) => f_equal
         | |- mkBytesIO _ _ = mkBytesIO _ _ => f_equal
         end;
  try reflexivity; try lia.

(** ** Fixed-width integers *)

Lemma in_order_involutive (order : byteorder) (bs : bytes) :
  in_order order (in_order order bs) = bs.
Proof. destruct order; [reflexivity | apply rev_involutive]. Qed.

Lemma length_in_order (order : byteorder) (bs : bytes) :
  List.length (in_order order bs) = List.length bs.
Proof. destruct order; [reflexivity | apply length_rev]. Qed.

Lemma pow2_8 (n : Z) : 0 <= n -> 2 ^ (8 * n) = 256 ^ n.
Proof. intros H. rewrite Z.pow_mul_r by lia. reflexivity. Qed.

Lemma le_value_le_bytes_mod (n : nat) :
  forall v, le_value (le_bytes n v) = v mod 256 ^ Z.of_nat n.
Proof.
  induction n as [|n IH]; intros v.
  - simpl. rewrite Z.mod_1_r. reflexivity.
  - cbn [le_bytes le_value]. rewrite IH.
    rewrite byte_to_of_Z by (apply Z.mod_pos_bound; lia).
    rewrite Nat2Z.inj_succ, Z.pow_succ_r by lia.
    rewrite Z.rem_mul_r by lia. reflexivity.
Qed.

Lemma le_bytes_shift (n : nat) :
  forall v k, le_bytes n (v + k * 256 ^ Z.of_nat n) = le_bytes n v.
Proof.
  induction n as [|n IH]; intros v k; [reflexivity|].
  cbn [le_bytes]. rewrite Nat2Z.inj_succ, Z.pow_succ_r by lia.
  replace (v + k * (256 * 256 ^ Z.of_nat n))
    with (v + (k * 256 ^ Z.of_nat n) * 256) by lia.
  rewrite Z.mod_add, Z.div_add by lia. rewrite IH. reflexivity.
Qed.

Lemma to_bytes_ok_inv (v n : Z) (order : byteorder) (signed : bool) (b : bytes) :
  to_bytes v n order signed = Ok b ->
  0 <= n /\ b = in_order order (le_bytes (Z.to_nat n) v)
  /\ (if signed
      then n = 0 /\ (v = 0 \/ v = -1)
           \/ 0 < n /\ - 2 ^ (8 * n - 1) <= v < 2 ^ (8 * n - 1)
      else 0 <= v < 2 ^ (8 * n)).
Proof.
  unfold to_bytes. destruct (Z.ltb_spec n 0); [discriminate|].
  destruct signed.
  - destruct (Z.eqb_spec n 0); destruct (Z.eqb_spec v 0);
      destruct (Z.eqb_spec v (-1));
      destruct (Z.ltb_spec 0 n);
      destruct (Z.leb_spec (- 2 ^ (8 * n - 1)) v);
      destruct (Z.ltb_spec v (2 ^ (8 * n - 1)));
      cbn [andb orb]; try discriminate; intros [= <-];
      (split; [assumption|]); (split; [reflexivity|]); lia.
  - destruct (Z.leb_spec 0 v); destruct (Z.ltb_spec v (2 ^ (8 * n)));
      cbn [andb]; try discriminate; intros [= <-];
      (split; [assumption|]); (split; [reflexivity|]); lia.
Qed.

Lemma to_bytes_from_bytes (v n : Z) (order : byteorder) (signed : bool) (b : bytes) :
  to_bytes v n order signed = Ok b ->
  Z.of_nat (List.length b) = n
  /\ from_bytes b order signed = (if n =? 0 then 0 else v).
Proof.
  intros H.
  destruct (to_bytes_ok_inv _ _ _ _ _ H) as (Hn & -> & Hr).
  split; [rewrite length_in_order, length_le_bytes; lia|].
  unfold from_bytes. fold (in_order order (in_order order (le_bytes (Z.to_nat n) v))).
  rewrite in_order_involutive, length_le_bytes, le_value_le_bytes_mod.
  rewrite Z2Nat.id by assumption.
  destruct signed; cbn [andb].
  - destruct Hr as [[-> [->| ->]]|[Hp Hr]]; [reflexivity|reflexivity|].
    destruct (Z.eqb_spec n 0); [lia|].
    assert (E : 2 ^ (8 * n) = 2 * 2 ^ (8 * n - 1)).
    { rewrite <- Z.pow_succ_r by lia. f_equal. lia. }
    assert (0 < 2 ^ (8 * n - 1)) by (apply Z.pow_pos_nonneg; lia).
    rewrite <- pow2_8 by lia.
    destruct (Z.ltb_spec 0 (8 * n)); [|lia]. cbn [andb].
    destruct (Z_lt_le_dec v 0) as [Hneg|Hpos].
    + replace (v mod 2 ^ (8 * n)) with (v + 2 ^ (8 * n))
        by (symmetry; rewrite <- (Z.mod_add _ 1) by lia;
            rewrite Z.mul_1_l; apply Z.mod_small; lia).
      destruct (Z.leb_spec (2 ^ (8 * n - 1)) (v + 2 ^ (8 * n))); lia.
    + rewrite Z.mod_small by lia.
      destruct (Z.leb_spec (2 ^ (8 * n - 1)) v); lia.
  - destruct (Z.eqb_spec n 0) as [->|Hz]; [apply Z.mod_1_r|].
    rewrite <- pow2_8 by lia. apply Z.mod_small. exact Hr.
Qed.

(** Whatever [write_int] returns for an integer has the requested
    length. On a width of one byte or more, [read_int] with the same
    byte order and signedness gives the integer back. On width 0 only
    0 and, when signed, -1 are written, both as no byte at all, and
    [read_int] gives 0 for either. *)
Theorem write_int_read_int (v n : Z) (order : byteorder) (signed : bool) (b : bytes) :
  write_int (VInt v) n order signed = Ok b ->
  Z.of_nat (List.length b) = n
  /\ read_int b order signed = (if n =? 0 then 0 else v)
  /\ (n = 0 -> b = [] /\ (v = 0 \/ signed = true /\ v = -1)).
Proof.
  intros H. cbn [write_int] in H.
  destruct (to_bytes_from_bytes v n order signed b H) as [Hl Hv].
  split; [exact Hl | split; [exact Hv|]].
  intros ->. split; [destruct b; [reflexivity | discriminate]|].
  destruct (to_bytes_ok_inv _ _ _ _ _ H) as (_ & _ & Hr).
  destruct signed.
  - destruct Hr as [[_ [Hr|Hr]]|[Hr _]]; [left; exact Hr | right; auto | lia].
  - left. simpl in Hr. lia.
Qed.

Lemma write_int_read_int_witness :
  Z.of_nat (List.length [xfe; xff]) = 2
  /\ read_int [xfe; xff] little true = -2
  /\ (2 = 0 -> [xfe; xff] = [] /\ (-2 = 0 \/ true = true /\ -2 = -1)).
Proof. apply (write_int_read_int (-2) 2 little true [xfe; xff]). reflexivity. Defined.

(** An integer that does not fit the width is refused with
    OverflowError, never truncated. *)
Theorem write_int_out_of_range (v n : Z) (order : byteorder) (signed : bool) :
  1 <= n ->
  (if signed then v < - 2 ^ (8 * n - 1) \/ 2 ^ (8 * n - 1) <= v
   else v < 0 \/ 2 ^ (8 * n) <= v) ->
  write_int (VInt v) n order signed = Raise OverflowError.
Proof.
  intros Hn Hr. cbn [write_int]. unfold to_bytes.
  destruct (Z.ltb_spec n 0); [lia|].
  destruct signed.
  - destruct (Z.eqb_spec n 0); [lia|].
    destruct (Z.ltb_spec 0 n); [|lia].
    destruct (Z.leb_spec (- 2 ^ (8 * n - 1)) v);
      destruct (Z.ltb_spec v (2 ^ (8 * n - 1))); cbn [andb orb];
      try reflexivity; lia.
  - destruct (Z.leb_spec 0 v); destruct (Z.ltb_spec v (2 ^ (8 * n)));
      cbn [andb]; try reflexivity; lia.
Qed.

Lemma write_int_out_of_range_witness :
  write_int (VInt 256) 1 little false = Raise OverflowError.
Proof. apply (write_int_out_of_range 256 1 little false); simpl; lia. Defined.

(** Decoding any byte string and encoding the result on the same
    number of bytes gives the byte string back. *)
Theorem read_int_write_int (bs : bytes) (order : byteorder) (signed : bool) :
  write_int (VInt (read_int bs order signed)) (Z.of_nat (List.length bs)) order signed
  = Ok bs.
Proof.
  cbn [write_int]. unfold read_int, from_bytes.
  fold (in_order order bs).
  set (le := in_order order bs).
  assert (Hl : List.length le = List.length bs) by apply length_in_order.
  rewrite Hl.
  pose proof (le_value_range le) as Hu. rewrite Hl in Hu.
  set (n := Z.of_nat (List.length bs)) in *.
  assert (Hn : 0 <= n) by lia.
  assert (Hb : bs = in_order order le)
    by (unfold le; rewrite in_order_involutive; reflexivity).
  rewrite <- pow2_8 in Hu by lia.
  unfold to_bytes. destruct (Z.ltb_spec n 0); [lia|].
  fold (in_order order (le_bytes (Z.to_nat n)
          (if signed && (0 <? 8 * n) && (2 ^ (8 * n - 1) <=? le_value le)
           then le_value le - 2 ^ (8 * n) else le_value le))).
  assert (Hle : le_bytes (Z.to_nat n) (le_value le) = le).
  { unfold n. rewrite Nat2Z.id, <- Hl. apply le_bytes_le_value. }
  destruct signed; cbn [andb].
  - destruct (Z.ltb_spec 0 (8 * n)); cbn [andb].
    + assert (E : 2 ^ (8 * n) = 2 * 2 ^ (8 * n - 1)).
      { rewrite <- Z.pow_succ_r by lia. f_equal. lia. }
      destruct (Z.eqb_spec n 0); [lia|]. destruct (Z.ltb_spec 0 n); [|lia].
      destruct (Z.leb_spec (2 ^ (8 * n - 1)) (le_value le)).
      * destruct (Z.leb_spec (- 2 ^ (8 * n - 1)) (le_value le - 2 ^ (8 * n)));
          [|lia].
        destruct (Z.ltb_spec (le_value le - 2 ^ (8 * n)) (2 ^ (8 * n - 1)));
          [|lia].
        cbn [andb orb].
        replace (le_value le - 2 ^ (8 * n))
          with (le_value le + (-1) * 256 ^ Z.of_nat (Z.to_nat n))
          by (rewrite Z2Nat.id, <- pow2_8 by lia; lia).
        rewrite le_bytes_shift, Hle, <- Hb. reflexivity.
      * destruct (Z.leb_spec (- 2 ^ (8 * n - 1)) (le_value le)); [|lia].
        destruct (Z.ltb_spec (le_value le) (2 ^ (8 * n - 1))); [|lia].
        cbn [andb orb]. rewrite Hle, <- Hb. reflexivity.
    + assert (n = 0) by lia.
      assert (le_value le = 0) by (subst n; replace (8 * Z.of_nat (List.length bs)) with 0 in Hu by lia; simpl in Hu; lia).
      destruct (Z.eqb_spec n 0); [|lia].
      destruct (Z.eqb_spec (le_value le) 0); [|lia].
      cbn [andb orb]. rewrite Hle, <- Hb. reflexivity.
  - destruct (Z.leb_spec 0 (le_value le)); [|lia].
    destruct (Z.ltb_spec (le_value le) (2 ^ (8 * n))); [|lia].
    cbn [andb]. rewrite Hle, <- Hb. reflexivity.
Qed.

(** ** More on decimal text *)

Lemma digits_value_acc (s : str) :
  forall acc,
    digits_value s acc = acc * 10 ^ Z.of_nat (List.length s) + digits_value s 0.
Proof.
  induction s as [|c s IH]; intros acc.
  - cbn. lia.
  - cbn [digits_value fold_left List.length]. fold (digits_value s (10 * acc + (c - 48))).
    fold (digits_value s (10 * 0 + (c - 48))).
    rewrite IH, (IH (10 * 0 + (c - 48))).
    rewrite Nat2Z.inj_succ, Z.pow_succ_r by lia. ring.
Qed.

Lemma digit_range (c : Z) : isdigit c = true -> 0 <= c - 48 <= 9.
Proof.
  unfold isdigit. intros H. apply andb_true_iff in H. destruct H as [H1 H2].
  apply Z.leb_le in H1. apply Z.leb_le in H2. lia.
Qed.

Lemma digits_value_bound (s : str) :
  all_digits s -> 0 <= digits_value s 0 < 10 ^ Z.of_nat (List.length s).
Proof.
  induction 1 as [|c s Hc Hs IH].
  - cbn. lia.
  - cbn [digits_value fold_left List.length].
    fold (digits_value s (10 * 0 + (c - 48))). rewrite digits_value_acc.
    rewrite Nat2Z.inj_succ, Z.pow_succ_r by lia.
    pose proof (digit_range c Hc). nia.
Qed.

Lemma digits_unique (s : str) :
  all_digits s -> forall t, all_digits t ->
  List.length s = List.length t ->
  digits_value s 0 = digits_value t 0 -> s = t.
Proof.
  induction 1 as [|c s Hc Hs IH]; intros t Ht L E.
  - destruct t; [reflexivity | discriminate].
  - destruct Ht as [|d t Hd Ht]; [discriminate|].
    cbn [List.length] in L. injection L as L.
    cbn [digits_value fold_left] in E.
    fold (digits_value s (10 * 0 + (c - 48))) in E.
    fold (digits_value t (10 * 0 + (d - 48))) in E.
    rewrite (digits_value_acc s), (digits_value_acc t), <- L in E.
    pose proof (digits_value_bound s Hs) as Bs.
    pose proof (digits_value_bound t Ht) as Bt. rewrite <- L in Bt.
    pose proof (digit_range c Hc). pose proof (digit_range d Hd).
    assert (c = d) by nia. subst d.
    f_equal. apply IH; [assumption | assumption | nia].
Qed.

Lemma digits_value_format (w : nat) (n : Z) :
  0 <= n -> digits_value (format_zero_pad w n) 0 = n.
Proof.
  intros Hn. unfold format_zero_pad.
  rewrite digits_value_app, digits_value_zeros. apply dec_digits_value. exact Hn.
Qed.

Lemma format_zero_pad_of_digits (k : nat) (s : str) :
  all_digits s -> List.length s = S k ->
  format_zero_pad (S k) (digits_value s 0) = s.
Proof.
  intros Hs L. pose proof (digits_value_bound s Hs) as B. rewrite L in B.
  apply digits_unique.
  - apply format_zero_pad_digits.
  - exact Hs.
  - rewrite format_zero_pad_length by exact B. symmetry. exact L.
  - apply digits_value_format. lia.
Qed.

(** ** Series and unit identifiers, the other way round *)

Lemma length4 {A : Type} (l : list A) :
  List.length l = 4%nat -> exists a0 a1 a2 a3, l = [a0; a1; a2; a3].
Proof.
  intros H. do 4 (destruct l as [|? l]; [discriminate|]).
  destruct l; [|discriminate]. repeat eexists.
Qed.

(** Every 4-byte series identifier is reproduced by [read_series_bytes]
    followed by [write_series_bytes], also when its number takes five
    digits: the encoder reads all the digits after the letter. *)
Theorem series_bytes_decode_encode (byte_string : bytes) :
  List.length byte_string = 4%nat ->
  exists series,
    read_series_bytes byte_string = Ok series
    /\ write_series_bytes series = Ok byte_string.
Proof.
  intros L. destruct (length4 byte_string L) as (b0 & b1 & b2 & b3 & ->).
  pose proof (le_value_range [b0; b1]) as R01.
  pose proof (le_value_range [b2; b3]) as R23.
  change (256 ^ Z.of_nat (List.length [b0; b1])) with 65536 in R01.
  change (256 ^ Z.of_nat (List.length [b2; b3])) with 65536 in R23.
  unfold read_series_bytes. rewrite !from_bytes_unsigned.
  change (slice [b0; b1; b2; b3] 0 2) with [b0; b1].
  change (skipn 2 [b0; b1; b2; b3]) with [b2; b3].
  rewrite chr_ok by lia. cbn [bind]. eexists. split; [reflexivity|].
  unfold write_series_bytes. cbn [skipn].
  rewrite int_of_str_format_zero_pad by lia. cbn [bind].
  rewrite to_bytes_u16 by lia. cbn [bind index nth_error].
  rewrite to_bytes_u16 by lia. cbn [bind].
  change 2%nat with (List.length [b0; b1]) at 1. rewrite le_bytes_le_value.
  change 2%nat with (List.length [b2; b3]) at 1. rewrite le_bytes_le_value.
  reflexivity.
Qed.

Lemma series_bytes_decode_encode_witness :
  exists series,
    read_series_bytes [x10; x27; x41; x00] = Ok series
    /\ write_series_bytes series = Ok [x10; x27; x41; x00].
Proof. apply (series_bytes_decode_encode [x10; x27; x41; x00]). reflexivity. Defined.

(** [write_series_bytes] reads all the ASCII digits that follow the
    first character, however many, not four of them. Beyond
    [int_max_str_digits] digits [int()] refuses the string with
    ValueError; otherwise the value of the digits goes into two bytes,
    and a value above 65535 is an OverflowError. *)
Theorem write_series_bytes_digits (c : Z) (digits : str) :
  0 <= c <= 65535 -> all_digits digits -> digits <> [] ->
  write_series_bytes (c :: digits)
  = if int_max_str_digits <? Z.of_nat (List.length digits)
    then Raise ValueError
    else if digits_value digits 0 <=? 65535
         then Ok (le_bytes 2 (digits_value digits 0) ++ le_bytes 2 c)
         else Raise OverflowError.
Proof.
  intros Hc Hd Hne. unfold write_series_bytes. cbn [skipn].
  rewrite (int_of_str_all_digits _ Hd Hne).
  destruct (int_max_str_digits <? Z.of_nat (List.length digits));
    [reflexivity|]. cbn [bind].
  pose proof (digits_value_bound digits Hd) as Hb.
  destruct (Z.leb_spec (digits_value digits 0) 65535).
  - rewrite to_bytes_u16 by lia. cbn [bind index nth_error].
    rewrite to_bytes_u16 by lia. reflexivity.
  - unfold to_bytes. cbn [Z.ltb Z.compare].
    change (2 ^ (8 * 2)) with 65536.
    destruct (Z.leb_spec 0 (digits_value digits 0)); [|lia].
    destruct (Z.ltb_spec (digits_value digits 0) 65536); [lia|]. reflexivity.
Qed.

Lemma write_series_bytes_digits_witness :
  write_series_bytes (lit "A70000") = Raise OverflowError.
Proof.
  apply (write_series_bytes_digits 65 (lit "70000")).
  - lia.
  - repeat constructor.
  - discriminate.
Defined.

Lemma byte_of_Z_nonzero (z : Z) : 0 < z < 256 -> byte_of_Z z <> x00.
Proof.
  intros Hz E. apply (f_equal byte_to_Z) in E.
  rewrite byte_to_of_Z in E by lia. change (byte_to_Z x00) with 0 in E. lia.
Qed.

Lemma utf8_encode_ascii_char (c : Z) :
  0 <= c < 128 -> utf8_encode [c] = Ok [byte_of_Z c].
Proof.
  intros H. rewrite utf8_encode_ascii_str by (repeat constructor; lia).
  reflexivity.
Qed.

(** A well-formed unit identifier (an ASCII letter that is not NUL,
    four digits, an ASCII letter, three digits, two digits) is encoded
    on 8 bytes by [write_guid_bytes], and [read_guid_bytes] of those
    bytes gives the identifier back. *)
Theorem guid_string_roundtrip (gundam unit_type : Z) (series model spec : str) :
  0 < gundam < 128 -> 0 <= unit_type < 128 ->
  all_digits series -> List.length series = 4%nat ->
  all_digits model -> List.length model = 3%nat ->
  all_digits spec -> List.length spec = 2%nat ->
  exists b,
    write_guid_bytes (Some (gundam :: series ++ unit_type :: model ++ spec)) = Ok b
    /\ List.length b = 8%nat
    /\ read_guid_bytes b = Ok (Some (gundam :: series ++ unit_type :: model ++ spec)).
Proof.
  intros Hg Hu Hs Ls Hm Lm Hp Lp.
  destruct series as [|s1 [|s2 [|s3 [|s4 [|]]]]]; try discriminate.
  destruct model as [|m1 [|m2 [|m3 [|]]]]; try discriminate.
  destruct spec as [|p1 [|p2 [|]]]; try discriminate.
  pose proof (digits_value_bound _ Hs) as Bs. rewrite Ls in Bs.
  pose proof (digits_value_bound _ Hm) as Bm. rewrite Lm in Bm.
  pose proof (digits_value_bound _ Hp) as Bp. rewrite Lp in Bp.
  change (10 ^ Z.of_nat 4) with 10000 in Bs.
  change (10 ^ Z.of_nat 3) with 1000 in Bm.
  change (10 ^ Z.of_nat 2) with 100 in Bp.
  pose proof (format_zero_pad_of_digits 3 _ Hs Ls) as Fs.
  pose proof (format_zero_pad_of_digits 2 _ Hm Lm) as Fm.
  pose proof (format_zero_pad_of_digits 1 _ Hp Lp) as Fp.
  pose proof (fun N L => int_of_str_digits _ Hs N L) as Is.
  pose proof (fun N L => int_of_str_digits _ Hm N L) as Im.
  pose proof (fun N L => int_of_str_digits _ Hp N L) as Ip.
  set (vs := digits_value [s1; s2; s3; s4] 0) in *.
  set (vm := digits_value [m1; m2; m3] 0) in *.
  set (vp := digits_value [p1; p2] 0) in *.
  exists (le_bytes 2 vs ++ [byte_of_Z gundam] ++ [x00] ++ [byte_of_Z unit_type]
          ++ le_bytes 1 vp ++ le_bytes 2 vm).
  split; [|split].
  - cbn [app write_guid_bytes].
    change (slice _ 1 5) with [s1; s2; s3; s4].
    change (slice _ 9 11) with [p1; p2].
    change (slice _ 6 9) with [m1; m2; m3].
    rewrite Is by (discriminate || (cbn; lia)). cbn [bind].
    rewrite to_bytes_u16 by lia.
    cbn [bind index nth_error].
    rewrite utf8_encode_ascii_char by lia. cbn [bind].
    rewrite utf8_encode_ascii_char by lia. cbn [bind].
    rewrite Ip by (discriminate || (cbn; lia)). cbn [bind].
    rewrite to_bytes_u8 by lia.
    cbn [bind]. rewrite Im by (discriminate || (cbn; lia)). cbn [bind].
    rewrite to_bytes_u16 by lia. reflexivity.
  - reflexivity.
  - unfold read_guid_bytes.
    destruct (bytes_eqb _ zero_guid) eqn:Ez.
    + apply bytes_eqb_eq in Ez. cbn in Ez. injection Ez as _ _ Ez _.
      exfalso. apply (byte_of_Z_nonzero gundam); [lia | exact Ez].
    + rewrite !from_bytes_unsigned.
      change (slice _ 0 2) with (le_bytes 2 vs).
      change (slice _ 6 8) with (le_bytes 2 vm).
      cbn [app le_bytes index nth_error bind].
      rewrite !byte_to_of_Z by (try apply Z.mod_pos_bound; lia).
      rewrite !chr_ok by lia. cbn [bind].
      fold (le_bytes 2 vs). fold (le_bytes 2 vm).
      rewrite !le_value_le_bytes by (simpl; lia).
      rewrite (Z.mod_small vp) by lia.
      rewrite Fs, Fm, Fp. reflexivity.
Qed.

Lemma guid_string_roundtrip_witness :
  exists b,
    write_guid_bytes (Some (lit "A0001B00101")) = Ok b
    /\ List.length b = 8%nat
    /\ read_guid_bytes b = Ok (Some (lit "A0001B00101")).
Proof.
  apply (guid_string_roundtrip 65 66 (lit "0001") (lit "001") (lit "01"));
    try lia; try reflexivity; repeat constructor.
Defined.

Lemma chr_byte (b : byte) : chr (byte_to_Z b) = Ok (byte_to_Z b).
Proof. apply chr_ok. pose proof (byte_to_Z_range b). lia. Qed.

(** Fewer than 6 bytes, as a stream near its end gives them, make
    [read_guid_bytes] raise IndexError. *)
Theorem read_guid_bytes_truncated (byte_string : bytes) :
  (List.length byte_string < 6)%nat ->
  read_guid_bytes byte_string = Raise IndexError.
Proof.
  intros L. unfold read_guid_bytes.
  destruct (bytes_eqb byte_string zero_guid) eqn:Ez.
  - apply bytes_eqb_eq in Ez. subst. cbn in L. lia.
  - do 6 (destruct byte_string as [|? byte_string];
          [cbn [index nth_error bind]; rewrite ?chr_byte; reflexivity|]).
    cbn [List.length] in L. lia.
Qed.

Lemma read_guid_bytes_truncated_witness :
  read_guid_bytes [x01; x00; x41] = Raise IndexError.
Proof. apply (read_guid_bytes_truncated [x01; x00; x41]). simpl. lia. Defined.

(** ** UTF-8 *)

Ltac zcases :=
  repeat match goal with
         | |- context [?a <? ?b] => destruct (Z.ltb_spec a b); try lia
         | |- context [?a <=? ?b] => destruct (Z.leb_spec a b); try lia
         end;
  cbn [andb orb negb].

Lemma Ok_inj {A : Type} (a b : A) : Ok a = Ok b -> a = b.
Proof. congruence. Qed.

(** One step of [utf8_decode]. *)
Lemma utf8_decode_cons (b0 : byte) (r0 : bytes) :
  utf8_decode (b0 :: r0)
  = let v0 := byte_to_Z b0 in
    if v0 <? 128 then
      t <- utf8_decode r0 ;; Ok (v0 :: t)
    else if (194 <=? v0) && (v0 <? 224) then
      match r0 with
      | b1 :: r1 =>
          if is_cont b1 then
            t <- utf8_decode r1 ;;
            Ok ((v0 - 192) * 64 + (byte_to_Z b1 - 128) :: t)
          else Raise UnicodeDecodeError
      | _ => Raise UnicodeDecodeError
      end
    else if (224 <=? v0) && (v0 <? 240) then
      match r0 with
      | b1 :: b2 :: r2 =>
          let c := (v0 - 224) * 4096 + (byte_to_Z b1 - 128) * 64
                   + (byte_to_Z b2 - 128) in
          if is_cont b1 && is_cont b2 && (2048 <=? c)
             && negb ((55296 <=? c) && (c <=? 57343)) then
            t <- utf8_decode r2 ;; Ok (c :: t)
          else Raise UnicodeDecodeError
      | _ => Raise UnicodeDecodeError
      end
    else if (240 <=? v0) && (v0 <? 245) then
      match r0 with
      | b1 :: b2 :: b3 :: r3 =>
          let c := (v0 - 240) * 262144 + (byte_to_Z b1 - 128) * 4096
                   + (byte_to_Z b2 - 128) * 64 + (byte_to_Z b3 - 128) in
          if is_cont b1 && is_cont b2 && is_cont b3
             && (65536 <=? c) && (c <=? 1114111) then
            t <- utf8_decode r3 ;; Ok (c :: t)
          else Raise UnicodeDecodeError
      | _ => Raise UnicodeDecodeError
      end
    else Raise UnicodeDecodeError.
Proof. destruct r0; reflexivity. Qed.

Lemma is_cont_tail (x : Z) : 0 <= x < 64 -> is_cont (byte_of_Z (128 + x)) = true.
Proof.
  intros H. unfold is_cont. rewrite byte_to_of_Z by lia.
  apply andb_true_iff. split; [apply Z.leb_le | apply Z.ltb_lt]; lia.
Qed.

Lemma utf8_decode_encode_char (c : Z) (h : bytes) :
  utf8_encode_char c = Ok h ->
  forall t, utf8_decode (h ++ t) = (r <- utf8_decode t ;; Ok (c :: r)).
Proof.
  unfold utf8_encode_char.
  destruct (Z.ltb_spec c 0); [discriminate|].
  destruct (Z.ltb_spec 1114111 c); [discriminate|]. cbn [orb].
  assert (M0 : 0 <= c mod 64 < 64) by (apply Z.mod_pos_bound; lia).
  assert (M1 : 0 <= (c / 64) mod 64 < 64) by (apply Z.mod_pos_bound; lia).
  assert (M2 : 0 <= (c / 4096) mod 64 < 64) by (apply Z.mod_pos_bound; lia).
  destruct (Z.ltb_spec c 128).
  { intros E t; apply Ok_inj in E; subst h. cbn [app].
    rewrite utf8_decode_cons. cbv zeta.
    rewrite byte_to_of_Z by lia. destruct (Z.ltb_spec c 128); [|lia].
    reflexivity. }
  destruct (Z.ltb_spec c 2048).
  { intros E t; apply Ok_inj in E; subst h. cbn [app].
    rewrite utf8_decode_cons. cbv beta zeta match.
    assert (2 <= c / 64 < 32) by (Z.div_mod_to_equations; lia).
    rewrite is_cont_tail by lia.
    rewrite !byte_to_of_Z by lia.
    replace ((192 + c / 64 - 192) * 64 + (128 + c mod 64 - 128)) with c
      by (Z.div_mod_to_equations; lia).
    remember (c / 64) as q1 eqn:E1 in *. clear E1.
    zcases. reflexivity. }
  destruct ((55296 <=? c) && (c <=? 57343)) eqn:Esur; [discriminate|].
  destruct (Z.ltb_spec c 65536).
  - intros E t; apply Ok_inj in E; subst h. cbn [app].
    rewrite utf8_decode_cons. cbv beta zeta match.
    assert (0 <= c / 4096 < 16) by (Z.div_mod_to_equations; lia).
    rewrite !is_cont_tail by lia.
    rewrite !byte_to_of_Z by lia.
    replace ((224 + c / 4096 - 224) * 4096 + (128 + (c / 64) mod 64 - 128) * 64
             + (128 + c mod 64 - 128)) with c by (Z.div_mod_to_equations; lia).
    rewrite Esur.
    remember (c / 4096) as q1 eqn:E1 in *. clear E1.
    zcases. reflexivity.
  - intros E t; apply Ok_inj in E; subst h. cbn [app].
    rewrite utf8_decode_cons. cbv beta zeta match.
    assert (0 <= c / 262144 < 5) by (Z.div_mod_to_equations; lia).
    rewrite !is_cont_tail by lia.
    rewrite !byte_to_of_Z by lia.
    replace ((240 + c / 262144 - 240) * 262144
             + (128 + (c / 4096) mod 64 - 128) * 4096
             + (128 + (c / 64) mod 64 - 128) * 64 + (128 + c mod 64 - 128))
      with c by (Z.div_mod_to_equations; lia).
    remember (c / 262144) as q0 eqn:E0 in *. clear E0.
    zcases. reflexivity.
Qed.

Lemma utf8_decode_encode (s : str) :
  forall b, utf8_encode s = Ok b -> utf8_decode b = Ok s.
Proof.
  induction s as [|c s IH]; intros b H.
  - apply Ok_inj in H. subst b. reflexivity.
  - cbn [utf8_encode] in H.
    destruct (utf8_encode_char c) as [h| |] eqn:Eh; try discriminate.
    cbn [bind] in H.
    destruct (utf8_encode s) as [t| |] eqn:Et; try discriminate.
    cbn [bind] in H. apply Ok_inj in H. subst b.
    rewrite (utf8_decode_encode_char c h Eh), (IH t eq_refl). reflexivity.
Qed.

Lemma utf8_encode_char_nonzero (c : Z) (h : bytes) :
  c <> 0 -> utf8_encode_char c = Ok h -> Forall (fun b => b <> x00) h.
Proof.
  unfold utf8_encode_char. intros Hc.
  destruct (Z.ltb_spec c 0); [discriminate|].
  destruct (Z.ltb_spec 1114111 c); [discriminate|]. cbn [orb].
  assert (0 <= c mod 64 < 64) by (apply Z.mod_pos_bound; lia).
  assert (0 <= (c / 64) mod 64 < 64) by (apply Z.mod_pos_bound; lia).
  assert (0 <= (c / 4096) mod 64 < 64) by (apply Z.mod_pos_bound; lia).
  assert (0 <= c / 64) by (apply Z.div_pos; lia).
  assert (0 <= c / 4096) by (apply Z.div_pos; lia).
  assert (0 <= c / 262144 < 5) by (Z.div_mod_to_equations; lia).
  destruct (Z.ltb_spec c 128);
    [|destruct (Z.ltb_spec c 2048);
      [|destruct ((55296 <=? c) && (c <=? 57343)); [discriminate|];
        destruct (Z.ltb_spec c 65536)]];
    intros E; apply Ok_inj in E; subst h;
    repeat constructor; apply byte_of_Z_nonzero;
    Z.div_mod_to_equations; lia.
Qed.

Lemma utf8_encode_nonzero (s : str) :
  Forall (fun c => c <> 0) s ->
  forall b, utf8_encode s = Ok b -> Forall (fun x => x <> x00) b.
Proof.
  induction 1 as [|c s Hc Hs IH]; intros b H.
  - apply Ok_inj in H. subst b. constructor.
  - cbn [utf8_encode] in H.
    destruct (utf8_encode_char c) as [h| |] eqn:Eh; try discriminate.
    cbn [bind] in H.
    destruct (utf8_encode s) as [t| |] eqn:Et; try discriminate.
    cbn [bind] in H. apply Ok_inj in H. subst b.
    apply Forall_app. split; [exact (utf8_encode_char_nonzero c h Hc Eh)|].
    apply IH. reflexivity.
Qed.

(** ** Streams, headers and strings *)

Lemma read_bytes_prefix (d : bytes) (p : Z) (x rest : bytes) :
  0 <= p -> skipn (Z.to_nat p) d = x ++ rest ->
  read_bytes (mkBytesIO d p) (Z.of_nat (List.length x))
  = (x, mkBytesIO d (p + Z.of_nat (List.length x)))
  /\ skipn (Z.to_nat (p + Z.of_nat (List.length x))) d = rest.
Proof.
  intros Hp Hs. unfold read_bytes. cbn [data pos]. rewrite Hs.
  destruct (Z.ltb_spec (Z.of_nat (List.length x)) 0); [lia|].
  rewrite Nat2Z.id, firstn_app, Nat.sub_diag, firstn_O, app_nil_r, firstn_all.
  split; [reflexivity|].
  rewrite Z2Nat.inj_add, Nat2Z.id by lia.
  rewrite Nat.add_comm, <- skipn_skipn, Hs.
  rewrite skipn_app, Nat.sub_diag, skipn_all. reflexivity.
Qed.

Lemma skipn_length_app {A : Type} (pre rest : list A) :
  skipn (Z.to_nat (Z.of_nat (List.length pre))) (pre ++ rest) = rest.
Proof.
  rewrite Nat2Z.id, skipn_app, Nat.sub_diag, skipn_all. reflexivity.
Qed.

(** The header [write_header] produces for a count is read back by
    [read_header], wherever it lies in the stream: the count is
    returned, the start position is recorded and the cursor ends just
    past the header. *)
Theorem header_roundtrip (self : instance) (record_count : Z) (b pre post : bytes) :
  record_count_length self = 4 ->
  write_header self (VInt record_count) = Ok b ->
  read_header self (mkBytesIO (pre ++ b ++ post) (Z.of_nat (List.length pre)))
  = Ok (record_count,
        set_start_pos self (Z.of_nat (List.length pre)),
        mkBytesIO (pre ++ b ++ post)
                  (Z.of_nat (List.length pre) + Z.of_nat (List.length b))).
Proof.
  intros Hl Hw. unfold write_header in Hw.
  destruct (header self) as [h|] eqn:Hh; [|discriminate].
  cbn [write_int] in Hw.
  destruct (to_bytes record_count 4 little false) as [cb| |] eqn:Ec;
    try discriminate.
  cbn [bind] in Hw. apply Ok_inj in Hw. subst b.
  apply to_bytes_u32_inv in Ec. destruct Ec as [-> Hc].
  unfold read_header. cbn [header set_start_pos tell pos record_count_length].
  rewrite Hh, Hl.
  destruct (read_bytes_prefix (pre ++ (h ++ le_bytes 4 record_count) ++ post)
              (Z.of_nat (List.length pre)) h (le_bytes 4 record_count ++ post))
    as [R1 S1]; [lia | rewrite skipn_length_app, <- app_assoc; reflexivity |].
  rewrite R1, bytes_eqb_refl.
  destruct (read_bytes_prefix (pre ++ (h ++ le_bytes 4 record_count) ++ post)
              (Z.of_nat (List.length pre) + Z.of_nat (List.length h))
              (le_bytes 4 record_count) post)
    as [R2 _]; [lia | exact S1 |].
  rewrite length_le_bytes in R2. change (Z.of_nat 4) with 4 in R2. rewrite R2.
  unfold read_int. rewrite from_bytes_unsigned, le_value_le_bytes by (simpl; lia).
  rewrite length_app, length_le_bytes. same_cursor.
Qed.

Lemma header_roundtrip_witness :
  read_header (__init__ C_StageVoiceTable None None None)
    (mkBytesIO ([xff] ++ [x54; x52; x54; x53; x00; x01; x01; x00;
                          x03; x00; x00; x00] ++ [xee])
               (Z.of_nat (List.length [xff])))
  = Ok (3, set_start_pos (__init__ C_StageVoiceTable None None None)
             (Z.of_nat (List.length [xff])),
        mkBytesIO ([xff] ++ [x54; x52; x54; x53; x00; x01; x01; x00;
                             x03; x00; x00; x00] ++ [xee])
                  (Z.of_nat (List.length [xff]) + Z.of_nat 12)).
Proof.
  apply (header_roundtrip (__init__ C_StageVoiceTable None None None) 3
           [x54; x52; x54; x53; x00; x01; x01; x00; x03; x00; x00; x00]
           [xff] [xee]); reflexivity.
Defined.

(** When the bytes at the cursor are not the magic of the instance,
    [read_header] raises AssertionError. *)
Theorem read_header_mismatch (self : instance) (h : bytes) (buffer : BytesIO) :
  header self = Some h ->
  fst (read_bytes buffer (Z.of_nat (List.length h))) <> h ->
  read_header self buffer = Raise AssertionError.
Proof.
  intros Hh Hne. unfold read_header. cbn [header set_start_pos]. rewrite Hh.
  destruct (read_bytes buffer (Z.of_nat (List.length h))) as [got buffer1].
  cbn [fst] in Hne.
  destruct (bytes_eqb got h) eqn:E; [|reflexivity].
  apply bytes_eqb_eq in E. contradiction.
Qed.

Lemma read_header_mismatch_witness :
  read_header (__init__ C_StringTBL None None None)
    (mkBytesIO [x54; x52; x54; x53; x00; x01; x01; x00; x00; x00; x00; x00] 0)
  = Raise AssertionError.
Proof.
  apply (read_header_mismatch (__init__ C_StringTBL None None None)
           [x00; x00; x00; x00; x00; x01; x01; x00]);
    [reflexivity | discriminate].
Defined.

Lemma first_null_app (x rest : bytes) :
  Forall (fun b => b <> x00) x ->
  first_null (x ++ x00 :: rest) = Some (List.length x).
Proof.
  induction 1 as [|b x Hb Hx IH]; [reflexivity|].
  cbn [app first_null List.length].
  destruct (byte_eqb b x00) eqn:E.
  - apply byte_eqb_eq in E. contradiction.
  - rewrite IH. reflexivity.
Qed.

(** A string without the character U+0000, written by
    [write_string_null_term], is read back by [read_string_null_term]
    when its first byte lies at [offset + self._start_pos]; the cursor
    ends just past the terminator. *)
Theorem null_string_roundtrip (fuel : nat) (self : instance) (s : str)
    (b pre post : bytes) (cursor offset : Z) :
  Forall (fun c => c <> 0) s ->
  write_string_null_term self s = Ok b ->
  offset + _start_pos self = Z.of_nat (List.length pre) ->
  (List.length b <= fuel)%nat ->
  read_string_null_term fuel self (mkBytesIO (pre ++ b ++ post) cursor) offset
  = Ok (s, mkBytesIO (pre ++ b ++ post)
                     (Z.of_nat (List.length pre) + Z.of_nat (List.length b))).
Proof.
  intros Hs Hw Ho Hf. unfold write_string_null_term in Hw.
  destruct (utf8_encode s) as [e| |] eqn:He; try discriminate.
  cbn [bind] in Hw. apply Ok_inj in Hw. subst b.
  rewrite length_app in Hf. cbn [List.length] in Hf.
  unfold read_string_null_term, seek. rewrite Ho.
  destruct (Z.ltb_spec (Z.of_nat (List.length pre)) 0); [lia|].
  cbn [bind].
  assert (Hsk : skipn (Z.to_nat (Z.of_nat (List.length pre)))
                      (pre ++ (e ++ [x00]) ++ post) = e ++ x00 :: post).
  { rewrite skipn_length_app, <- app_assoc. reflexivity. }
  cbn [data].
  rewrite (null_term_loop_found _ (List.length e) fuel _ []).
  - cbn [bind app data]. rewrite Hsk, firstn_app, Nat.sub_diag, firstn_O, app_nil_r.
    rewrite firstn_all, (utf8_decode_encode s e He). cbn [bind].
    rewrite length_app. cbn [List.length]. same_cursor.
  - lia.
  - rewrite Hsk. apply first_null_app. exact (utf8_encode_nonzero s Hs e He).
  - lia.
Qed.

Lemma null_string_roundtrip_witness :
  read_string_null_term 8 (__init__ C_GundamDataFile None None None)
    (mkBytesIO ([x07] ++ [xc3; xa9; x41; x00] ++ [x42]) 5) 1
  = Ok ([233; 65],
        mkBytesIO ([x07] ++ [xc3; xa9; x41; x00] ++ [x42])
                  (Z.of_nat (List.length [x07]) + Z.of_nat 4)).
Proof.
  apply (null_string_roundtrip 8 (__init__ C_GundamDataFile None None None)
           [233; 65] [xc3; xa9; x41; x00] [x07] [x42] 5 1).
  - repeat constructor; discriminate.
  - reflexivity.
  - reflexivity.
  - simpl. lia.
Defined.

(** At or past the end of the stream [read_string_length] raises
    nothing: the missing length byte counts as 0 and the result is the
    empty string, with the cursor where it was. *)
Theorem read_string_length_at_end (self : instance) (buffer : BytesIO) :
  Z.of_nat (List.length (data buffer)) <= pos buffer ->
  read_string_length self buffer = Ok ([], buffer).
Proof.
  intros H. destruct buffer as [d p]. cbn [data pos] in H.
  unfold read_string_length, read_bytes. cbn [data pos].
  rewrite skipn_all2 by lia. cbn [Z.ltb Z.compare firstn List.length].
  unfold read_int. rewrite from_bytes_unsigned. cbn [le_value Z.ltb Z.compare].
  cbn [Z.to_nat firstn List.length utf8_decode bind].
  rewrite !Z.add_0_r. rewrite skipn_all2 by lia. reflexivity.
Qed.

Lemma read_string_length_at_end_witness :
  read_string_length (__init__ C_GundamDataFile None None None)
    (mkBytesIO [x01; x41] 2)
  = Ok ([], mkBytesIO [x01; x41] 2).
Proof.
  apply (read_string_length_at_end (__init__ C_GundamDataFile None None None)
           (mkBytesIO [x01; x41] 2)).
  simpl. lia.
Defined.

(** ** Records of integers *)

Lemma str_eqb_refl (s : str) : str_eqb s s = true.
Proof. apply str_eqb_eq. reflexivity. Qed.

Lemma getitem_setitem (d : dict) (key k : str) (v : value) :
  getitem (setitem d key v) k = if str_eqb key k then Ok v else getitem d k.
Proof.
  induction d as [|[k0 v0] d IH]; cbn [setitem getitem]; [reflexivity|].
  destruct (str_eqb k0 key) eqn:E; cbn [getitem].
  - apply str_eqb_eq in E. subst k0. destruct (str_eqb key k); reflexivity.
  - rewrite IH. destruct (str_eqb k0 k) eqn:E1; [|reflexivity].
    apply str_eqb_eq in E1. subst k0.
    destruct (str_eqb key k) eqn:E2; [|reflexivity].
    apply str_eqb_eq in E2. subst key. rewrite str_eqb_refl in E. discriminate.
Qed.

Lemma str_eqb_neq (a b : str) : a <> b -> str_eqb a b = false.
Proof.
  intros H. destruct (str_eqb a b) eqn:E; [|reflexivity].
  apply str_eqb_eq in E. contradiction.
Qed.

Lemma str_in_dec (k : str) (l : list str) : {In k l} + {~ In k l}.
Proof. apply in_dec. apply list_eq_dec. apply Z.eq_dec. Qed.

(** One integer field, written and read back: on a width other than 0
    the value read is the value written, on width 0 it is 0. *)
Lemma int_field_roundtrip (fuel : nat) (self : instance) (field field_type : str)
    (items : list (str * str)) (record : dict) (acc out : bytes) :
  int_tag field_type = true ->
  write_record_loop self ((field, field_type) :: items) record acc = Ok out ->
  exists z z' bf,
    getitem record field = Ok (VInt z)
    /\ (wide_int_tag field_type = true -> z' = z)
    /\ write_record_loop self items record (acc ++ bf) = Ok out
    /\ forall r0 d p rest,
         0 <= p -> skipn (Z.to_nat p) d = bf ++ rest ->
         read_record_loop fuel self ((field, field_type) :: items) r0 (mkBytesIO d p)
         = read_record_loop fuel self items (setitem r0 field (VInt z'))
             (mkBytesIO d (p + Z.of_nat (List.length bf)))
           /\ skipn (Z.to_nat (p + Z.of_nat (List.length bf))) d = rest.
Proof.
  intros Ht H. unfold wide_int_tag. rewrite Ht. cbn [andb].
  unfold int_tag in Ht. cbn [write_record_loop] in H.
  destruct (startswith field_type (lit "int")) eqn:E1.
  - destruct (getitem record field) as [v| |]; try discriminate.
    cbn [bind] in H.
    destruct (last_char field_type) as [c| |] eqn:Ec; try discriminate.
    cbn [bind] in H.
    destruct (int_of_str [c]) as [n| |] eqn:En; try discriminate.
    cbn [bind] in H. destruct v as [|z|s]; try discriminate.
    cbn [write_int] in H.
    destruct (to_bytes z n little true) as [bf| |] eqn:Eb; try discriminate.
    cbn [bind] in H.
    destruct (to_bytes_from_bytes _ _ _ _ _ Eb) as [Hl Hv].
    exists z, (if n =? 0 then 0 else z), bf.
    split; [reflexivity|].
    split; [destruct n; [discriminate | reflexivity | reflexivity]|].
    split; [exact H|].
    intros r0 d p rest H0 H1.
    destruct (read_bytes_prefix d p bf rest H0 H1) as [R S].
    split; [|exact S].
    cbn [read_record_loop]. rewrite E1, Ec. cbn [bind]. rewrite En. cbn [bind].
    rewrite <- Hl, R. unfold read_int. rewrite Hv, Hl. reflexivity.
  - cbn [orb] in Ht. rewrite Ht in H.
    destruct (getitem record field) as [v| |]; try discriminate.
    cbn [bind] in H.
    destruct (last_char field_type) as [c| |] eqn:Ec; try discriminate.
    cbn [bind] in H.
    destruct (int_of_str [c]) as [n| |] eqn:En; try discriminate.
    cbn [bind] in H. destruct v as [|z|s]; try discriminate.
    cbn [write_int] in H.
    destruct (to_bytes z n little false) as [bf| |] eqn:Eb; try discriminate.
    cbn [bind] in H.
    destruct (to_bytes_from_bytes _ _ _ _ _ Eb) as [Hl Hv].
    exists z, (if n =? 0 then 0 else z), bf.
    split; [reflexivity|].
    split; [destruct n; [discriminate | reflexivity | reflexivity]|].
    split; [exact H|].
    intros r0 d p rest H0 H1.
    destruct (read_bytes_prefix d p bf rest H0 H1) as [R S].
    split; [|exact S].
    cbn [read_record_loop]. rewrite E1, Ht, Ec. cbn [bind]. rewrite En.
    cbn [bind].
    rewrite <- Hl, R. unfold read_int. rewrite Hv, Hl. reflexivity.
Qed.

Lemma wide_int_tag_int_tag (t : str) : wide_int_tag t = true -> int_tag t = true.
Proof. unfold wide_int_tag. intros H. apply andb_true_iff in H. apply H. Qed.

Lemma int_record_loop_keys (self : instance) (record : dict)
    (items : list (str * str)) :
  Forall (fun it => int_tag (snd it) = true) items ->
  forall acc out,
    write_record_loop self items record acc = Ok out ->
    forall k, In k (map fst items) -> exists z, getitem record k = Ok (VInt z).
Proof.
  induction 1 as [|[field field_type] items Ht Hits IH]; intros acc out H.
  - intros k [].
  - cbn [snd] in Ht.
    destruct (int_field_roundtrip 0 self field field_type items record acc out Ht H)
      as (z & z' & bf & Hg & _ & Hw & _).
    intros k [<-|Hin]; [eauto | exact (IH _ _ Hw k Hin)].
Qed.

Lemma int_record_loop_roundtrip (fuel : nat) (self : instance) (record : dict)
    (items : list (str * str)) :
  Forall (fun it => wide_int_tag (snd it) = true) items ->
  forall acc out,
    write_record_loop self items record acc = Ok out ->
    exists b,
      out = acc ++ b
      /\ forall r0 d p rest,
           0 <= p -> skipn (Z.to_nat p) d = b ++ rest ->
           exists r',
             read_record_loop fuel self items r0 (mkBytesIO d p)
             = Ok (r', mkBytesIO d (p + Z.of_nat (List.length b)))
             /\ (forall k, In k (map fst items) -> getitem r' k = getitem record k)
             /\ (forall k, ~ In k (map fst items) -> getitem r' k = getitem r0 k).
Proof.
  induction 1 as [|[field field_type] items Ht Hits IH]; intros acc out H.
  - apply Ok_inj in H. subst out. exists []. rewrite app_nil_r.
    split; [reflexivity|].
    intros r0 d p rest Hp Hs. exists r0. cbn [read_record_loop List.length].
    rewrite Z.add_0_r. repeat split; try reflexivity. intros k [].
  - cbn [snd] in Ht.
    destruct (int_field_roundtrip fuel self field field_type items record acc out
                (wide_int_tag_int_tag _ Ht) H)
      as (z & z' & bf & Hg & Hz & Hw & Hread).
    rewrite (Hz Ht) in Hread. clear Hz z'.
    destruct (IH _ _ Hw) as (b & -> & Hrest).
    exists (bf ++ b). split; [rewrite app_assoc; reflexivity|].
    intros r0 d p rest Hp Hs. rewrite <- app_assoc in Hs.
    destruct (Hread r0 d p (b ++ rest) Hp Hs) as [Hstep Hsk].
    destruct (Hrest (setitem r0 field (VInt z)) d
                (p + Z.of_nat (List.length bf)) rest) as (r' & Hr & Hin & Hout);
      [lia | exact Hsk |].
    exists r'. rewrite Hstep, Hr. rewrite length_app, Nat2Z.inj_add.
    split; [same_cursor|]. cbn [map fst In]. split.
    + intros k Hk. destruct (str_in_dec k (map fst items)) as [Hi|Hn].
      * apply Hin. exact Hi.
      * destruct Hk as [<-|Hk]; [|contradiction].
        rewrite (Hout field Hn), getitem_setitem, str_eqb_refl. symmetry. exact Hg.
    + intros k Hk. rewrite (Hout k) by tauto.
      rewrite getitem_setitem, str_eqb_neq by tauto. reflexivity.
Qed.

(** For a schema of integer fields only, each of a width other than 0,
    the bytes [write_record] produces are read back by [read_record],
    wherever they lie in the stream: every field of the schema has in
    the result the value it has in the record, the result has no other
    key, and the cursor ends just past the bytes. (A field of width 0
    takes no byte and is read as 0, also where -1 was written.) *)
Theorem int_record_roundtrip (fuel : nat) (self : instance)
    (definition : list (str * str)) (record : dict) (b pre post : bytes) :
  Forall (fun it => wide_int_tag (snd it) = true) definition ->
  write_record self definition record = Ok b ->
  exists record',
    read_record fuel self definition
      (mkBytesIO (pre ++ b ++ post) (Z.of_nat (List.length pre)))
    = Ok (record',
          mkBytesIO (pre ++ b ++ post)
                    (Z.of_nat (List.length pre) + Z.of_nat (List.length b)))
    /\ (forall k, In k (map fst definition) -> getitem record' k = getitem record k)
    /\ (forall k, ~ In k (map fst definition) -> getitem record' k = Raise KeyError).
Proof.
  intros Hd Hw. unfold write_record in Hw.
  destruct (int_record_loop_roundtrip fuel self record definition Hd [] b Hw)
    as (b' & Hb & Hread).
  cbn [app] in Hb. subst b'.
  destruct (Hread [] (pre ++ b ++ post) (Z.of_nat (List.length pre)) post)
    as (r' & Hr & Hin & Hout); [lia | apply skipn_length_app |].
  exists r'. unfold read_record. rewrite Hr. repeat split; assumption.
Qed.

Lemma int_record_roundtrip_witness :
  exists record',
    read_record 0 (__init__ C_GundamDataFile None None None)
      [(lit "hp", lit "uint2"); (lit "dx", lit "int1")]
      (mkBytesIO ([xaa] ++ [x2c; x01; xfe] ++ [xbb]) (Z.of_nat (List.length [xaa])))
    = Ok (record',
          mkBytesIO ([xaa] ++ [x2c; x01; xfe] ++ [xbb])
                    (Z.of_nat (List.length [xaa]) + Z.of_nat (List.length [x2c; x01; xfe])))
    /\ (forall k, In k (map fst [(lit "hp", lit "uint2"); (lit "dx", lit "int1")]) ->
        getitem record' k = getitem [(lit "dx", VInt (-2)); (lit "hp", VInt 300)] k)
    /\ (forall k, ~ In k (map fst [(lit "hp", lit "uint2"); (lit "dx", lit "int1")]) ->
        getitem record' k = Raise KeyError).
Proof.
  apply (int_record_roundtrip 0 (__init__ C_GundamDataFile None None None)
           [(lit "hp", lit "uint2"); (lit "dx", lit "int1")]
           [(lit "dx", VInt (-2)); (lit "hp", VInt 300)]
           [x2c; x01; xfe] [xaa] [xbb]).
  - repeat constructor.
  - reflexivity.
Defined.

(** [write_record] returns bytes for a schema of integer fields only
    when the record has an integer under every field name: a missing
    key is a KeyError. *)
Theorem write_record_int_keys (self : instance) (definition : list (str * str))
    (record : dict) (b : bytes) :
  Forall (fun it => int_tag (snd it) = true) definition ->
  write_record self definition record = Ok b ->
  forall k, In k (map fst definition) -> exists z, getitem record k = Ok (VInt z).
Proof.
  intros Hd Hw. unfold write_record in Hw.
  exact (int_record_loop_keys self record definition Hd [] b Hw).
Qed.

Lemma write_record_int_keys_witness :
  exists z, getitem [(lit "hp", VInt 300)] (lit "hp") = Ok (VInt z).
Proof.
  apply (write_record_int_keys (__init__ C_GundamDataFile None None None)
           [(lit "hp", lit "uint2")] [(lit "hp", VInt 300)] [x2c; x01]).
  - repeat constructor.
  - reflexivity.
  - left. reflexivity.
Defined.

(** ** String tables, further *)

Lemma pointers_fit_index (items : list (Z * bytes)) :
  forall string_start, pointers_fit items string_start ->
  Forall (fun it => 0 <= fst it < 4294967296) items.
Proof.
  induction items as [|[i sb] items IH]; intros string_start H; constructor.
  - cbn [pointers_fit] in H. cbn [fst]. tauto.
  - cbn [pointers_fit] in H. apply (IH _ (proj2 (proj2 H))).
Qed.

(** [_write] returns bytes only for records that are all well formed:
    each has an "index" that [int()] turns into an integer of
    [0, 2^32) and a "string" that encodes to UTF-8. *)
Theorem write_requires_well_formed_records (self : instance)
    (records : list dict) (bs : bytes) :
  StringTBL._write self records = Ok bs ->
  forall record, In record records ->
  exists i sb,
    record_fields record = Ok (i, sb) /\ 0 <= i < 4294967296.
Proof.
  intros Hw record Hin.
  destruct (header self) as [h|] eqn:Hh.
  - destruct (write_layout self h records bs Hh Hw) as (items & HF & _ & Hfit & _).
    apply pointers_fit_index in Hfit.
    apply In_nth_error in Hin. destruct Hin as [k Hk].
    destruct (Forall2_nth_error _ _ _ HF k record Hk) as ([i sb] & Hit & Hrec).
    exists i, sb. split; [exact Hrec|].
    apply nth_error_In in Hit.
    exact (proj1 (Forall_forall _ _) Hfit _ Hit).
  - unfold StringTBL._write in Hw. rewrite Hh in Hw. discriminate.
Qed.

Lemma write_requires_well_formed_records_witness :
  exists i sb,
    record_fields [(lit "index", VStr (lit "7")); (lit "string", VStr (lit "A"))]
    = Ok (i, sb)
    /\ 0 <= i < 4294967296.
Proof.
  apply (write_requires_well_formed_records
           (__init__ C_StringTBL None None None)
           [[(lit "index", VStr (lit "7")); (lit "string", VStr (lit "A"))]]
           [x00; x00; x00; x00; x00; x01; x01; x00; x01; x00; x00; x00;
            x07; x00; x00; x00; x20; x00; x00; x00;
            x00; x00; x00; x00; x00; x00; x00; x00; x00; x00; x00; x00;
            x41; x00]).
  - reflexivity.
  - left. reflexivity.
Defined.

(** The empty table: [_write] gives the magic, a zero count and four
    bytes of padding, and [_read] of those bytes returns no record,
    with the cursor just past the count. *)
Theorem empty_table_roundtrip (self : instance) (h : bytes) :
  header self = Some h -> record_count_length self = 4 ->
  StringTBL._write self []
  = Ok (h ++ [x00; x00; x00; x00] ++ [x00; x00; x00; x00])
  /\ forall fuel,
       StringTBL._read fuel self
         (mkBytesIO (h ++ [x00; x00; x00; x00] ++ [x00; x00; x00; x00]) 0)
       = Ok ([], set_start_pos self 0,
             mkBytesIO (h ++ [x00; x00; x00; x00] ++ [x00; x00; x00; x00])
                       (Z.of_nat (List.length h) + 4)).
Proof.
  intros Hh Hl. split.
  - unfold StringTBL._write. rewrite Hh. cbn. rewrite <- app_assoc. reflexivity.
  - intros fuel. unfold StringTBL._read, read_header.
    cbn [header set_start_pos tell pos record_count_length]. rewrite Hh, Hl.
    destruct (read_bytes_prefix (h ++ [x00; x00; x00; x00] ++ [x00; x00; x00; x00])
                0 h ([x00; x00; x00; x00] ++ [x00; x00; x00; x00]))
      as [R1 S1]; [lia | reflexivity |].
    rewrite R1, bytes_eqb_refl.
    destruct (read_bytes_prefix (h ++ [x00; x00; x00; x00] ++ [x00; x00; x00; x00])
                (0 + Z.of_nat (List.length h))
                [x00; x00; x00; x00] [x00; x00; x00; x00])
      as [R2 _]; [lia | exact S1 |].
    change (Z.of_nat (List.length [x00; x00; x00; x00])) with 4 in R2.
    rewrite R2. reflexivity.
Qed.

Lemma empty_table_roundtrip_witness :
  StringTBL._write (__init__ C_StageVoiceTable None None None) []
  = Ok ([x54; x52; x54; x53; x00; x01; x01; x00]
        ++ [x00; x00; x00; x00] ++ [x00; x00; x00; x00]).
Proof.
  apply (empty_table_roundtrip (__init__ C_StageVoiceTable None None None)
           [x54; x52; x54; x53; x00; x01; x01; x00]); reflexivity.
Defined.

(** [StageVoiceTable._read] returns, like the reader it extends, only
    for a table without entries. *)
Theorem voice_table_read_returns_nothing (fuel : nat) (self : instance)
    (buffer : BytesIO) (records : list dict) (self' : instance) (buffer' : BytesIO) :
  StageVoiceTable._read fuel self buffer = Ok (records, self', buffer') ->
  records = [].
Proof.
  unfold StageVoiceTable._read, StringTBL._read.
  destruct (read_header self buffer) as [[[n s1] b1]| |]; try discriminate.
  cbn [bind].
  destruct (StringTBL.entries_loop (Z.to_nat n) 0 b1 []) as [[|r rs] b2].
  - cbn [StringTBL.strings_loop bind StageVoiceTable.unpack_loop].
    intros H. apply Ok_inj in H. injection H as <- _ _. reflexivity.
  - rewrite strings_loop_raises. discriminate.
Qed.

Lemma voice_table_read_returns_nothing_witness :
  @nil dict = [].
Proof.
  apply (voice_table_read_returns_nothing 0
           (__init__ C_StageVoiceTable None None None)
           (mkBytesIO [x54; x52; x54; x53; x00; x01; x01; x00;
                       x00; x00; x00; x00; x00; x00; x00; x00] 0)
           []
           (set_start_pos (__init__ C_StageVoiceTable None None None) 0)
           (mkBytesIO [x54; x52; x54; x53; x00; x01; x01; x00;
                       x00; x00; x00; x00; x00; x00; x00; x00] 12)).
  reflexivity.
Defined.

Lemma string_table_read_returns_nothing_witness :
  @nil dict = [].
Proof.
  apply (string_table_read_returns_nothing 0
           (__init__ C_StringTBL None None None)
           (mkBytesIO [x00; x00; x00; x00; x00; x01; x01; x00;
                       x00; x00; x00; x00; x00; x00; x00; x00] 0)
           []
           (set_start_pos (__init__ C_StringTBL None None None) 0)
           (mkBytesIO [x00; x00; x00; x00; x00; x01; x01; x00;
                       x00; x00; x00; x00; x00; x00; x00; x00] 12)).
  reflexivity.
Defined.

Lemma write_pointers_witness :
  exists i sb,
    record_fields [(lit "index", VInt 2); (lit "string", VStr (lit "BB"))]
    = Ok (i, sb)
    /\ from_bytes
         (slice [x00; x00; x00; x00; x00; x01; x01; x00; x02; x00; x00; x00;
                 x01; x00; x00; x00; x20; x00; x00; x00;
                 x02; x00; x00; x00; x22; x00; x00; x00;
                 x00; x00; x00; x00;
                 x41; x00; x42; x42; x00] (12 + 8 * 1) (12 + 8 * 1 + 4))
         little false = i
    /\ exists pointer : nat,
         from_bytes
           (slice [x00; x00; x00; x00; x00; x01; x01; x00; x02; x00; x00; x00;
                   x01; x00; x00; x00; x20; x00; x00; x00;
                   x02; x00; x00; x00; x22; x00; x00; x00;
                   x00; x00; x00; x00;
                   x41; x00; x42; x42; x00] (12 + 8 * 1 + 4) (12 + 8 * 1 + 8))
           little false = Z.of_nat pointer
         /\ slice [x00; x00; x00; x00; x00; x01; x01; x00; x02; x00; x00; x00;
                   x01; x00; x00; x00; x20; x00; x00; x00;
                   x02; x00; x00; x00; x22; x00; x00; x00;
                   x00; x00; x00; x00;
                   x41; x00; x42; x42; x00] pointer (pointer + List.length sb) = sb
         /\ nth_error
              [x00; x00; x00; x00; x00; x01; x01; x00; x02; x00; x00; x00;
               x01; x00; x00; x00; x20; x00; x00; x00;
               x02; x00; x00; x00; x22; x00; x00; x00;
               x00; x00; x00; x00;
               x41; x00; x42; x42; x00] (pointer + List.length sb) = Some x00.
Proof.
  apply (write_pointers (__init__ C_StringTBL None None None)
           [x00; x00; x00; x00; x00; x01; x01; x00]
           [ [(lit "index", VInt 1); (lit "string", VStr (lit "A"))];
             [(lit "index", VInt 2); (lit "string", VStr (lit "BB"))] ]
           _ eq_refl eq_refl eq_refl 1%nat
           [(lit "index", VInt 2); (lit "string", VStr (lit "BB"))] eq_refl).
Defined.

Lemma read_string_null_term_unterminated_witness :
  read_string_null_term 1000 (__init__ C_GundamDataFile None None None)
    (mkBytesIO [x41; x42] 0) 0
  = OutOfFuel.
Proof.
  apply (read_string_null_term_unterminated 1000
           (__init__ C_GundamDataFile None None None) (mkBytesIO [x41; x42] 0) 0);
    [vm_compute; discriminate | reflexivity].
Defined.

Lemma string_length_ascii_roundtrip_witness :
  exists b,
    write_string_length (__init__ C_GundamDataFile None None None) (lit "abc") = Ok b
    /\ b = byte_of_Z (Z.of_nat (List.length (lit "abc"))) :: map byte_of_Z (lit "abc")
    /\ read_string_length (__init__ C_GundamDataFile None None None) (mkBytesIO b 0)
       = Ok (lit "abc", mkBytesIO b (1 + Z.of_nat (List.length (lit "abc")))).
Proof.
  apply (string_length_ascii_roundtrip (__init__ C_GundamDataFile None None None)
           (lit "abc")).
  - repeat constructor; lia.
  - simpl. lia.
Defined.

Lemma lstrip_single (c : Z) : lstrip [c] = if isspace c then [] else [c].
Proof. reflexivity. Qed.

Lemma strip_single (c : Z) : strip [c] = if isspace c then [] else [c].
Proof.
  unfold strip. rewrite lstrip_single.
  destruct (isspace c) eqn:E; [reflexivity|].
  cbn [rev app]. rewrite lstrip_single, E. reflexivity.
Qed.

(** [int()] of one character that is not a decimal digit. *)
Lemma int_of_str_not_digit (c : Z) :
  decimal_value c = None -> int_of_str [c] = Raise ValueError.
Proof.
  intros H. unfold int_of_str. rewrite strip_single.
  destruct (isspace c); [reflexivity|].
  destruct (c =? 43); [reflexivity|].
  destruct (c =? 45); [reflexivity|].
  cbn [int_digits]. rewrite H. cbn [negb andb].
  rewrite andb_false_r. reflexivity.
Qed.

(** When [read_record] reaches a field whose type starts with "int" or
    "uint" and whose last character is not a decimal digit, of any
    script, [int(field_type[-1])] raises ValueError, whatever the
    stream holds. *)
Theorem read_record_loop_width_not_digit (fuel : nat) (self : instance)
    (field field_type : str) (items : list (str * str)) (record : dict)
    (buffer : BytesIO) (c : Z) :
  int_tag field_type = true ->
  last_char field_type = Ok c ->
  decimal_value c = None ->
  read_record_loop fuel self ((field, field_type) :: items) record buffer
  = Raise ValueError.
Proof.
  intros Hs Hc Hd.
  exact (read_record_loop_bad_width fuel self field field_type items record
           buffer c Hs Hc (int_of_str_not_digit c Hd)).
Qed.

Lemma read_record_loop_width_not_digit_witness :
  read_record_loop 0 (__init__ C_GundamDataFile None None None)
    ((lit "n", lit "integer") :: []) [] (mkBytesIO [x01] 0)
  = Raise ValueError.
Proof.
  apply (read_record_loop_width_not_digit 0
           (__init__ C_GundamDataFile None None None)
           (lit "n") (lit "integer") [] [] (mkBytesIO [x01] 0) 114);
    reflexivity.
Defined.

(** ** Exhausted streams *)

Lemma read_bytes_at_end (d : bytes) (p n : Z) :
  Z.of_nat (List.length d) <= p -> 0 <= n ->
  read_bytes (mkBytesIO d p) n = ([], mkBytesIO d p).
Proof.
  intros Hp Hn. unfold read_bytes. cbn [data pos].
  rewrite skipn_all2 by lia. destruct (Z.ltb_spec n 0); [lia|].
  rewrite firstn_nil. cbn [List.length]. rewrite Z.add_0_r. reflexivity.
Qed.

Lemma int_of_str_digit (c : Z) : isdigit c = true -> int_of_str [c] = Ok (c - 48).
Proof.
  intros H. rewrite int_of_str_digits by (repeat constructor; assumption || discriminate).
  unfold digits_value, fold_left. f_equal; lia.
Qed.

Lemma read_record_loop_at_end (fuel : nat) (self : instance) (d : bytes) (p : Z)
    (items : list (str * str)) :
  Z.of_nat (List.length d) <= p ->
  Forall (fun it => int_width_tag (snd it) = true) items ->
  forall r0,
  exists r',
    read_record_loop fuel self items r0 (mkBytesIO d p) = Ok (r', mkBytesIO d p)
    /\ (forall k, In k (map fst items) -> getitem r' k = Ok (VInt 0))
    /\ (forall k, ~ In k (map fst items) -> getitem r' k = getitem r0 k).
Proof.
  intros Hp. induction 1 as [|[field field_type] items Ht Hits IH]; intros r0.
  - exists r0. repeat split; try reflexivity. intros k [].
  - cbn [snd] in Ht. unfold int_width_tag, int_tag in Ht.
    apply andb_true_iff in Ht. destruct Ht as [Ht Hc].
    destruct (last_char field_type) as [c| |] eqn:Ec; try discriminate.
    pose proof (digit_range c Hc) as Hr.
    destruct (IH (setitem r0 field (VInt 0))) as (r' & Hr' & Hin & Hout).
    exists r'. cbn [map fst In]. split; [|split].
    + cbn [read_record_loop]. rewrite Ec. cbn [bind].
      rewrite (int_of_str_digit c Hc). cbn [bind].
      rewrite (read_bytes_at_end d p (c - 48)) by lia.
      destruct (startswith field_type (lit "int")); [exact Hr'|].
      cbn [orb] in Ht. rewrite Ht. exact Hr'.
    + intros k Hk. destruct (str_in_dec k (map fst items)) as [Hi|Hn].
      * apply Hin. exact Hi.
      * destruct Hk as [<-|Hk]; [|contradiction].
        rewrite (Hout field Hn), getitem_setitem, str_eqb_refl. reflexivity.
    + intros k Hk. rewrite (Hout k) by tauto.
      rewrite getitem_setitem, str_eqb_neq by tauto. reflexivity.
Qed.

(** On a stream that is exhausted [read_record] raises nothing for
    integer fields: every field of the schema is decoded as 0 and the
    cursor does not move. *)
Theorem read_record_at_end (fuel : nat) (self : instance)
    (definition : list (str * str)) (buffer : BytesIO) :
  Z.of_nat (List.length (data buffer)) <= pos buffer ->
  Forall (fun it => int_width_tag (snd it) = true) definition ->
  exists record,
    read_record fuel self definition buffer = Ok (record, buffer)
    /\ (forall k, In k (map fst definition) -> getitem record k = Ok (VInt 0))
    /\ (forall k, ~ In k (map fst definition) -> getitem record k = Raise KeyError).
Proof.
  intros Hp Hd. destruct buffer as [d p]. cbn [data pos] in Hp.
  destruct (read_record_loop_at_end fuel self d p definition Hp Hd [])
    as (r' & Hr & Hin & Hout).
  exists r'. unfold read_record. repeat split; assumption.
Qed.

Lemma read_record_at_end_witness :
  exists record,
    read_record 0 (__init__ C_GundamDataFile None None None)
      [(lit "hp", lit "uint2"); (lit "dx", lit "int1")] (mkBytesIO [x01] 1)
    = Ok (record, mkBytesIO [x01] 1)
    /\ (forall k, In k (map fst [(lit "hp", lit "uint2"); (lit "dx", lit "int1")]) ->
        getitem record k = Ok (VInt 0))
    /\ (forall k, ~ In k (map fst [(lit "hp", lit "uint2"); (lit "dx", lit "int1")]) ->
        getitem record k = Raise KeyError).
Proof.
  apply (read_record_at_end 0 (__init__ C_GundamDataFile None None None)
           [(lit "hp", lit "uint2"); (lit "dx", lit "int1")] (mkBytesIO [x01] 1)).
  - simpl. lia.
  - repeat constructor.
Defined.

(** ** The voice-cue table, further *)

(** A record decoded by the loop of [StageVoiceTable._read] has a
    string under "voice_id" and integers under "val1", "val2" and
    "val3"; every other key, "string" among them, keeps its value. *)
Theorem unpack_record_keys (record record' : dict) :
  StageVoiceTable.unpack_record record = Ok record' ->
  (exists p0 v1 v2 v3,
      getitem record' (lit "voice_id") = Ok (VStr p0)
      /\ getitem record' (lit "val1") = Ok (VInt v1)
      /\ getitem record' (lit "val2") = Ok (VInt v2)
      /\ getitem record' (lit "val3") = Ok (VInt v3))
  /\ forall k,
       ~ In k [lit "voice_id"; lit "val1"; lit "val2"; lit "val3"] ->
       getitem record' k = getitem record k.
Proof.
  unfold StageVoiceTable.unpack_record. intros H.
  destruct (getitem record (lit "string")) as [sv| |]; try discriminate.
  cbn [bind] in H.
  destruct (StageVoiceTable.split_value sv) as [unpack| |]; try discriminate.
  cbn [bind] in H.
  destruct (index unpack 0) as [p0| |]; try discriminate. cbn [bind] in H.
  destruct (index unpack 1) as [p1| |]; try discriminate. cbn [bind] in H.
  destruct (int_of_str p1) as [v1| |]; try discriminate. cbn [bind] in H.
  destruct (index unpack 2) as [p2| |]; try discriminate. cbn [bind] in H.
  destruct (int_of_str p2) as [v2| |]; try discriminate. cbn [bind] in H.
  destruct (index unpack 3) as [p3| |]; try discriminate. cbn [bind] in H.
  destruct (int_of_str p3) as [v3| |]; try discriminate. cbn [bind] in H.
  apply Ok_inj in H. subst record'. split.
  - exists p0, v1, v2, v3. rewrite !getitem_setitem.
    repeat split; reflexivity.
  - intros k Hk. cbn [In] in Hk. rewrite !getitem_setitem.
    rewrite !str_eqb_neq by tauto. reflexivity.
Qed.

Lemma unpack_record_keys_witness :
  (exists p0 v1 v2 v3,
      getitem [(lit "string", VStr (lit "v001,1,2,3"));
               (lit "voice_id", VStr (lit "v001"));
               (lit "val1", VInt 1); (lit "val2", VInt 2); (lit "val3", VInt 3)]
              (lit "voice_id") = Ok (VStr p0)
      /\ getitem [(lit "string", VStr (lit "v001,1,2,3"));
                  (lit "voice_id", VStr (lit "v001"));
                  (lit "val1", VInt 1); (lit "val2", VInt 2); (lit "val3", VInt 3)]
                 (lit "val1") = Ok (VInt v1)
      /\ getitem [(lit "string", VStr (lit "v001,1,2,3"));
                  (lit "voice_id", VStr (lit "v001"));
                  (lit "val1", VInt 1); (lit "val2", VInt 2); (lit "val3", VInt 3)]
                 (lit "val2") = Ok (VInt v2)
      /\ getitem [(lit "string", VStr (lit "v001,1,2,3"));
                  (lit "voice_id", VStr (lit "v001"));
                  (lit "val1", VInt 1); (lit "val2", VInt 2); (lit "val3", VInt 3)]
                 (lit "val3") = Ok (VInt v3))
  /\ forall k,
       ~ In k [lit "voice_id"; lit "val1"; lit "val2"; lit "val3"] ->
       getitem [(lit "string", VStr (lit "v001,1,2,3"));
                (lit "voice_id", VStr (lit "v001"));
                (lit "val1", VInt 1); (lit "val2", VInt 2); (lit "val3", VInt 3)] k
       = getitem [(lit "string", VStr (lit "v001,1,2,3"))] k.
Proof.
  apply (unpack_record_keys [(lit "string", VStr (lit "v001,1,2,3"))]).
  reflexivity.
Defined.

(** ** Names and classes *)

Lemma existsb_dot (s : str) : existsb (Z.eqb 46) s = true <-> In 46 s.
Proof.
  rewrite existsb_exists. split.
  - intros (x & Hx & E). apply Z.eqb_eq in E. subst x. exact Hx.
  - intros H. exists 46. split; [exact H | reflexivity].
Qed.

Lemma rpartition_head_no_dot (s : str) : ~ In 46 s -> rpartition_head 46 s = [].
Proof.
  intros H. destruct s as [|c s]; [reflexivity|]. cbn [rpartition_head].
  destruct (existsb (Z.eqb 46) s) eqn:E; [|reflexivity].
  apply existsb_dot in E. exfalso. apply H. right. exact E.
Qed.

Lemma rpartition_head_last_dot (stem ext : str) :
  ~ In 46 ext -> rpartition_head 46 (stem ++ 46 :: ext) = stem.
Proof.
  intros H. induction stem as [|c stem IH]; cbn [app rpartition_head].
  - destruct (existsb (Z.eqb 46) ext) eqn:E; [|reflexivity].
    apply existsb_dot in E. contradiction.
  - replace (existsb (Z.eqb 46) (stem ++ 46 :: ext)) with true.
    + rewrite IH. reflexivity.
    + symmetry. apply existsb_dot. apply in_or_app. right. left. reflexivity.
Qed.

(** The JSON file [dump] and [load] use when none is given: the data
    file name with what follows its last dot replaced by "json"; a
    data file name without a dot gives ".json". *)
Theorem json_name_default (stem ext : str) :
  ~ In 46 ext ->
  json_name (Some (stem ++ 46 :: ext)) None = Ok (stem ++ lit ".json")
  /\ json_name (Some ext) None = Ok (lit ".json").
Proof.
  intros H. unfold json_name.
  rewrite (rpartition_head_last_dot stem ext H), (rpartition_head_no_dot ext H).
  split; reflexivity.
Qed.

Lemma json_name_default_witness :
  json_name (Some (lit "data/a.b" ++ 46 :: lit "tbl")) None
  = Ok (lit "data/a.b" ++ lit ".json")
  /\ json_name (Some (lit "tbl")) None = Ok (lit ".json").
Proof.
  apply (json_name_default (lit "data/a.b") (lit "tbl")).
  vm_compute. intuition discriminate.
Defined.

(** No class of the two files implements [read] or [write]: on every
    instance both raise NotImplementedError. *)
Theorem read_write_not_implemented_anywhere (self : instance) (buffer : BytesIO)
    (records : list dict) :
  self_read self buffer = Raise NotImplementedError
  /\ self_write self records = Raise NotImplementedError.
Proof. destruct self as [[] ? ? ? ?]; split; reflexivity. Qed.

(** ** Identifiers and entries, further *)

(** [read_guid_bytes] answers [None] for the 8 zero bytes and for
    nothing else. *)
Theorem read_guid_bytes_none_iff (byte_string : bytes) :
  read_guid_bytes byte_string = Ok None <-> byte_string = zero_guid.
Proof.
  unfold read_guid_bytes. split.
  - destruct (bytes_eqb byte_string zero_guid) eqn:E.
    + intros _. apply bytes_eqb_eq. exact E.
    + destruct (index byte_string 2) as [b2| |]; try discriminate.
      cbn [bind]. rewrite chr_byte. cbn [bind].
      destruct (index byte_string 4) as [b4| |]; try discriminate.
      cbn [bind]. rewrite chr_byte. cbn [bind].
      destruct (index byte_string 5) as [b5| |]; discriminate.
  - intros ->. reflexivity.
Qed.

Lemma entries_loop_entries (items : list (Z * bytes)) :
  forall string_start order d p rest acc,
    0 <= p -> pointers_fit items string_start ->
    skipn (Z.to_nat p) d = entries items string_start ++ rest ->
    StringTBL.entries_loop (List.length items) order (mkBytesIO d p) acc
    = (acc ++ index_records items string_start order,
       mkBytesIO d (p + 8 * Z.of_nat (List.length items))).
Proof.
  induction items as [|[i sb] items IH];
    intros string_start order d p rest acc Hp Hfit Hs.
  - cbn [List.length StringTBL.entries_loop index_records].
    rewrite app_nil_r. same_cursor.
  - cbn [pointers_fit] in Hfit. destruct Hfit as (Hi & Hst & Hfit).
    cbn [entries] in Hs. rewrite <- !app_assoc in Hs.
    cbn [List.length StringTBL.entries_loop index_records].
    destruct (read_bytes_prefix d p (le_bytes 4 i) _ Hp Hs) as [R1 S1].
    rewrite length_le_bytes in R1, S1. change (Z.of_nat 4) with 4 in R1, S1.
    rewrite R1.
    destruct (read_bytes_prefix d (p + 4) (le_bytes 4 string_start) _
                ltac:(lia) S1) as [R2 S2].
    rewrite length_le_bytes in R2, S2. change (Z.of_nat 4) with 4 in R2, S2.
    rewrite R2. rewrite !from_bytes_unsigned.
    rewrite !le_value_le_bytes by (simpl; lia).
    rewrite (IH _ (order + 1) d (p + 4 + 4) rest _ ltac:(lia) Hfit S2).
    rewrite <- app_assoc. cbn [app]. same_cursor.
Qed.

(** On the bytes [_write] produces, the first loop of [_read], started
    after the 12 bytes of the header and run once per record, reads
    back the index of every record and the offset of its string, in
    order, and stops at the end of the entries. *)
Theorem read_entries_of_write (self : instance) (h : bytes)
    (records : list dict) (bs : bytes) :
  header self = Some h -> List.length h = 8%nat ->
  StringTBL._write self records = Ok bs ->
  exists items,
    Forall2 (fun r it => record_fields r = Ok it) records items
    /\ StringTBL.entries_loop (List.length records) 0 (mkBytesIO bs 12) []
       = (index_records items
            (12 + Z.of_nat (List.length records) * 8
             + padding_of (Z.of_nat (List.length records))) 0,
          mkBytesIO bs (12 + 8 * Z.of_nat (List.length records))).
Proof.
  intros Hh Hl Hw.
  destruct (write_layout self h records bs Hh Hw) as (items & HF & Hc & Hfit & ->).
  exists items. split; [exact HF|].
  pose proof (Forall2_length HF) as HL.
  set (count := Z.of_nat (List.length records)) in *.
  set (start := 12 + count * 8 + padding_of count) in *.
  set (rest := repeat x00 (Z.to_nat (padding_of count)) ++ blob items).
  assert (Hsk : skipn (Z.to_nat 12) (h ++ le_bytes 4 count ++ entries items start ++ rest)
                = entries items start ++ rest).
  { rewrite (app_assoc h).
    replace (Z.to_nat 12) with (List.length (h ++ le_bytes 4 count))
      by (rewrite length_app, length_le_bytes, Hl; reflexivity).
    rewrite skipn_app, Nat.sub_diag, skipn_all. reflexivity. }
  replace (List.length records) with (List.length items) by (symmetry; exact HL).
  rewrite (entries_loop_entries items start 0 _ 12 rest [] ltac:(lia) Hfit Hsk).
  unfold count. rewrite HL. reflexivity.
Qed.

Lemma read_entries_of_write_witness :
  exists items,
    Forall2 (fun r it => record_fields r = Ok it)
      [[(lit "index", VInt 7); (lit "string", VStr (lit "A"))]] items
    /\ StringTBL.entries_loop
         (List.length [[(lit "index", VInt 7); (lit "string", VStr (lit "A"))]]) 0
         (mkBytesIO
            [x00; x00; x00; x00; x00; x01; x01; x00; x01; x00; x00; x00;
             x07; x00; x00; x00; x20; x00; x00; x00;
             x00; x00; x00; x00; x00; x00; x00; x00; x00; x00; x00; x00;
             x41; x00] 12) []
       = (index_records items
            (12 + Z.of_nat (List.length [[(lit "index", VInt 7);
                                          (lit "string", VStr (lit "A"))]]) * 8
             + padding_of (Z.of_nat (List.length [[(lit "index", VInt 7);
                                                   (lit "string", VStr (lit "A"))]]))) 0,
          mkBytesIO
            [x00; x00; x00; x00; x00; x01; x01; x00; x01; x00; x00; x00;
             x07; x00; x00; x00; x20; x00; x00; x00;
             x00; x00; x00; x00; x00; x00; x00; x00; x00; x00; x00; x00;
             x41; x00]
            (12 + 8 * Z.of_nat (List.length [[(lit "index", VInt 7);
                                             (lit "string", VStr (lit "A"))]]))).
Proof.
  apply (read_entries_of_write (__init__ C_StringTBL None None None)
           [x00; x00; x00; x00; x00; x01; x01; x00]
           [[(lit "index", VInt 7); (lit "string", VStr (lit "A"))]]);
    reflexivity.
Defined.
